(** * Multi-assistant workflow engine: a shallow embedding of [src/main.py]

    The development follows the source class by class:
    - [PyStr]: the few [str] methods the code calls;
    - [PyDict]: Python's insertion-ordered [dict] with string keys;
    - [AssistantStore]: [Assistant] and [AssistantManager];
    - [WorkflowStore]: [WorkflowStep], [Workflow] and [WorkflowManager], over
      a heap of list objects and step objects, because the manager copies
      lists ([list.copy]) and mutates them in place ([list.append]);
    - [Engine]: [Message], [ChatManager.process_message] and
      [ChatManager.get_assistant_response], over an explicit model of the
      remote completion service, then [initialize], [clear_history] and
      [save_conversation];
    - [Interface]: the handlers of [ChatInterface.create_interface] that
      call the managers.

    Strings are sequences of bytes (UTF-8), as Rocq's [string].  What the
    code takes from outside is a parameter of the section that uses it: the
    clock, [str.lower], the completion service.  The definitions come
    first; the properties follow, module by module ([ListFacts],
    [DictFacts], [AssistantFacts], [WorkflowFacts], [EngineFacts], then
    [AssistantExtra], [InterfaceFacts], [WorkflowExtra], [EdgeFacts] and
    [EngineExtra] for the rest of the code). *)

From Stdlib Require Import Ascii String DecimalString.
From stdpp Require Import base option list strings.

Open Scope string_scope.
Open Scope list_scope.

(** ** Python [str] methods *)
Module PyStr.

(** The one-character string ["\n"]. *)
Definition nl : string := String (Ascii.ascii_of_nat 10) EmptyString.

(** [sep.join(l)] *)
Fixpoint join (sep : string) (l : list string) : string :=
  match l with
  | [] => ""
  | [x] => x
  | x :: r => x +:+ sep +:+ join sep r
  end.

(** [s.replace(" ", "_")]: every space becomes an underscore.  A space is
    the single byte 32 in UTF-8 and occurs in no multi-byte sequence. *)
Fixpoint replace_space (s : string) : string :=
  match s with
  | EmptyString => EmptyString
  | String c r =>
      String (if Ascii.eqb c " "%char then "_"%char else c) (replace_space r)
  end.

(** [str.lower] restricted to ASCII letters: an instance of the [lower]
    parameter of [AssistantStore] for names written in ASCII. *)
Definition ascii_lower_char (c : Ascii.ascii) : Ascii.ascii :=
  let n := Ascii.nat_of_ascii c in
  if (65 <=? n)%nat && (n <=? 90)%nat then Ascii.ascii_of_nat (n + 32) else c.

Fixpoint ascii_lower (s : string) : string :=
  match s with
  | EmptyString => EmptyString
  | String c r => String (ascii_lower_char c) (ascii_lower r)
  end.

(** [str(i)] for a natural number. *)
Definition str_nat (i : nat) : string :=
  NilZero.string_of_uint (Nat.to_uint i).

(** [sub in s] for strings. *)
Fixpoint contains (sub s : string) : bool :=
  String.prefix sub s ||
  match s with
  | EmptyString => false
  | String _ r => contains sub r
  end.

End PyStr.

(** ** Python [dict] with [str] keys

    A [dict] keeps its keys in insertion order: assigning to a present key
    keeps the key's position, assigning to an absent key appends it. *)
Module PyDict.

Definition dict (V : Type) := list (string * V).

(** [d.get(k)] *)
Fixpoint get {V} (k : string) (d : dict V) : option V :=
  match d with
  | [] => None
  | (k', v) :: r => if String.eqb k k' then Some v else get k r
  end.

(** [k in d] *)
Definition mem {V} (k : string) (d : dict V) : bool :=
  match get k d with Some _ => true | None => false end.

(** [d[k] = v] *)
Fixpoint set {V} (k : string) (v : V) (d : dict V) : dict V :=
  match d with
  | [] => [(k, v)]
  | (k', v') :: r =>
      if String.eqb k k' then (k', v) :: r else (k', v') :: set k v r
  end.

(** [del d[k]]; the callers test [k in d] first. *)
Fixpoint del {V} (k : string) (d : dict V) : dict V :=
  match d with
  | [] => []
  | (k', v') :: r => if String.eqb k k' then r else (k', v') :: del k r
  end.

(** [list(d.keys())] and [list(d.values())] *)
Definition keys {V} (d : dict V) : list string := map fst d.
Definition values {V} (d : dict V) : list V := map snd d.

End PyDict.

(** ** [Assistant] and [AssistantManager] *)
Module AssistantStore.

(** The dataclass [Assistant]; its six fields are strings. *)
Record Assistant := mkAssistant {
  id : string;
  name : string;
  role : string;
  prompt : string;
  created_at : string;
  modified_at : string
}.

(** The manager's dictionary [self.assistants] together with the
    [assistants] entry of the configuration file it is saved to ([None]
    while the file has no such entry).  An [Assistant] object is held by
    value: the manager is the only holder the operations below go through. *)
Record AssistantManager := mkManager {
  assistants : PyDict.dict Assistant;
  config_assistants : option (list Assistant)
}.

(** [save_assistants]: rewrites the [assistants] entry of the configuration
    with a snapshot of every assistant.  Input/output faults, which the
    method logs and swallows, are not modelled. *)
Definition save_assistants (m : AssistantManager) : bool * AssistantManager :=
  (true, {| assistants := assistants m;
            config_assistants := Some (PyDict.values (assistants m)) |}).

(** [hasattr(assistant, key)] as far as the six fields go.  The class has
    other attributes, the method [to_dict] and those every object has; an
    assignment to one of them either adds an instance attribute, which
    leaves the six fields as they are, or is refused (see
    [refuses_assignment] below). *)
Definition hasattr (key : string) : bool :=
  String.eqb key "id" || String.eqb key "name" || String.eqb key "role" ||
  String.eqb key "prompt" || String.eqb key "created_at" ||
  String.eqb key "modified_at".

(** [setattr(assistant, key, value)], seen on the six fields. *)
Definition setattr (a : Assistant) (key value : string) : Assistant :=
  if String.eqb key "id" then
    mkAssistant value (name a) (role a) (prompt a) (created_at a) (modified_at a)
  else if String.eqb key "name" then
    mkAssistant (id a) value (role a) (prompt a) (created_at a) (modified_at a)
  else if String.eqb key "role" then
    mkAssistant (id a) (name a) value (prompt a) (created_at a) (modified_at a)
  else if String.eqb key "prompt" then
    mkAssistant (id a) (name a) (role a) value (created_at a) (modified_at a)
  else if String.eqb key "created_at" then
    mkAssistant (id a) (name a) (role a) (prompt a) value (modified_at a)
  else if String.eqb key "modified_at" then
    mkAssistant (id a) (name a) (role a) (prompt a) (created_at a) value
  else a.

(** The value [data] gives to [key]: the last one, as the loop of
    [update_assistant] goes through the items in order. *)
Definition supplied (key : string) (data : list (string * string))
  : option string :=
  PyDict.get key (rev data).

Section Manager.

(** [str.lower], a method of Python's [str]. *)
Variable lower : string -> string.

(** The defaults of [created_at] and [modified_at]: [datetime.now()] is
    evaluated once, when the class [Assistant] is defined. *)
Variable default_created_at default_modified_at : string.

(** The attributes of an object for which [setattr] raises when given a
    string: in CPython [__class__], [__dict__] and [__weakref__]. *)
Variable refuses_assignment : string -> bool.

(** The loop of [update_assistant] over [data.items()]: the assistant as
    the loop leaves it, and whether the loop came to its end.  The object
    is changed in place, so the assignments made before one that raises
    stay. *)
Fixpoint apply_items (data : list (string * string)) (a : Assistant)
  : Assistant * bool :=
  match data with
  | [] => (a, true)
  | (key, value) :: r =>
      if refuses_assignment key then (a, false)
      else apply_items r (if hasattr key then setattr a key value else a)
  end.

(** The id that [add_assistant] derives from a name. *)
Definition derive_id (name : string) : string :=
  PyStr.replace_space (lower name).

(** [add_assistant(name, role, prompt)]; the [AssistantError] raised for a
    present id is caught by the method itself, which then returns [False]. *)
Definition add_assistant (name role prompt : string) (m : AssistantManager)
  : bool * AssistantManager :=
  let assistant_id := derive_id name in
  if PyDict.mem assistant_id (assistants m) then (false, m)
  else
    let assistant :=
      mkAssistant assistant_id name role prompt
                  default_created_at default_modified_at in
    let m1 := {| assistants := PyDict.set assistant_id assistant (assistants m);
                 config_assistants := config_assistants m |} in
    (true, (save_assistants m1).2).

(** [update_assistant(assistant_id, data)]; [now] is the reading of
    [datetime.now().isoformat()] taken by the call.  An exception raised
    in the loop is caught by the method, which then returns [False] without
    refreshing [modified_at] or saving. *)
Definition update_assistant (assistant_id : string)
    (data : list (string * string)) (now : string) (m : AssistantManager)
  : bool * AssistantManager :=
  match PyDict.get assistant_id (assistants m) with
  | None => (false, m)
  | Some assistant =>
      match apply_items data assistant with
      | (a1, true) =>
          let a2 := setattr a1 "modified_at" now in
          let m1 := {| assistants := PyDict.set assistant_id a2 (assistants m);
                       config_assistants := config_assistants m |} in
          (true, (save_assistants m1).2)
      | (a1, false) =>
          (false, {| assistants := PyDict.set assistant_id a1 (assistants m);
                     config_assistants := config_assistants m |})
      end
  end.

(** [get_assistant(assistant_id)] *)
Definition get_assistant (assistant_id : string) (m : AssistantManager)
  : option Assistant :=
  PyDict.get assistant_id (assistants m).

(** [delete_assistant(assistant_id)] *)
Definition delete_assistant (assistant_id : string) (m : AssistantManager)
  : bool * AssistantManager :=
  if PyDict.mem assistant_id (assistants m) then
    let m1 := {| assistants := PyDict.del assistant_id (assistants m);
                 config_assistants := config_assistants m |} in
    (true, (save_assistants m1).2)
  else (false, m).

End Manager.

(** A small store to run the operations on: two assistants, saved. *)
Definition sample_reviewer : Assistant :=
  mkAssistant "reviewer" "Reviewer" "critic" "Review the code." "t0" "t0".

Definition sample_expert : Assistant :=
  mkAssistant "code_expert" "Code Expert" "developer" "Write the code."
              "t0" "t0".

Definition sample_manager : AssistantManager :=
  mkManager [("code_expert", sample_expert); ("reviewer", sample_reviewer)]
            (Some [sample_expert; sample_reviewer]).

Definition sample_refuses (key : string) : bool :=
  String.eqb key "__class__" || String.eqb key "__dict__" ||
  String.eqb key "__weakref__".


(** *** The rest of [AssistantManager] *)

(** [get_all_assistants()] *)
Definition get_all_assistants (m : AssistantManager) : list Assistant :=
  PyDict.values (assistants m).

(** The body of the loops of [load_default_assistants] and
    [load_saved_assistants]: the assistant goes under its own [id]. *)
Definition store_under_id (m : AssistantManager) (a : Assistant)
  : AssistantManager :=
  {| assistants := PyDict.set (id a) a (assistants m);
     config_assistants := config_assistants m |}.

(** [load_default_assistants], for a table of defaults. *)
Definition load_default_assistants (defaults : PyDict.dict Assistant)
    (m : AssistantManager) : AssistantManager :=
  fold_left store_under_id (PyDict.values defaults) m.

(** [load_saved_assistants]: the entries of the configuration, in order.
    An entry is taken with its six keys, as [save_assistants] writes it; a
    configuration with another shape is outside the types used here. *)
Definition load_saved_assistants (m : AssistantManager) : AssistantManager :=
  match config_assistants m with
  | None => m
  | Some entries => fold_left store_under_id entries m
  end.

(** [AssistantManager()] in a world whose configuration holds [config]. *)
Definition new_manager (defaults : PyDict.dict Assistant)
    (config : option (list Assistant)) : AssistantManager :=
  load_saved_assistants
    (load_default_assistants defaults
       {| assistants := []; config_assistants := config |}).

(** The last assistant of a list that has the id [k]. *)
Definition last_with_id (k : string) (l : list Assistant) : option Assistant :=
  PyDict.get k (rev (map (fun a => (id a, a)) l)).

(** Every assistant is stored under its own id, and no key occurs twice. *)
Definition stored_by_id (m : AssistantManager) : Prop :=
  Forall (fun kv => id kv.2 = kv.1) (assistants m) /\
  NoDup (PyDict.keys (assistants m)).

(** The string has a space in it. *)
Fixpoint has_space (s : string) : bool :=
  match s with
  | EmptyString => false
  | String c r => Ascii.eqb c " "%char || has_space r
  end.

(** The prompts of the three built-in assistants, line by line as the
    source writes them. *)
Definition code_expert_prompt : string :=
  PyStr.join PyStr.nl
    ["你是一个专业的Python开发者，精通软件开发最佳实践。";
     "        职责：";
     "        1. 编写高质量、可维护的代码";
     "        2. 提供详细的代码说明和文档";
     "        3. 优化代码性能和结构";
     "        4. 解决技术难题和debug";
     "        ";
     "        回复要求：";
     "        1. 给出完整、可运行的代码";
     "        2. 包含必要的注释和说明";
     "        3. 说明代码的优缺点";
     "        4. 提供可能的优化建议"].

Definition reviewer_prompt : string :=
  PyStr.join PyStr.nl
    ["你是一个经验丰富的代码审查专家，专注于代码质量和最佳实践。";
     "        职责：";
     "        1. 审查代码质量和风格";
     "        2. 检查潜在的bug和安全问题";
     "        3. 提供改进建议";
     "        4. 确保代码符合最佳实践";
     "        ";
     "        审查重点：";
     "        1. 代码可读性和维护性";
     "        2. 性能优化空间";
     "        3. 安全漏洞";
     "        4. 架构设计合理性"].

Definition architect_prompt : string :=
  PyStr.join PyStr.nl
    ["你是一个资深的系统架构师，擅长设计可扩展的系统架构。";
     "        职责：";
     "        1. 系统架构设计";
     "        2. 技术选型建议";
     "        3. 性能和扩展性规划";
     "        4. 解决方案评估";
     "        ";
     "        输出要求：";
     "        1. 清晰的架构图和说明";
     "        2. 详细的技术选型理由";
     "        3. 可能的风险和解决方案";
     "        4. 扩展性和维护性考虑"].

(** The constant [DEFAULT_ASSISTANTS]; the two timestamps of its entries are
    the defaults of the class. *)
Definition DEFAULT_ASSISTANTS (created modified : string)
  : PyDict.dict Assistant :=
  [("code_expert",
    mkAssistant "code_expert" "代码专家" "Python开发者" code_expert_prompt created modified);
   ("reviewer",
    mkAssistant "reviewer" "代码审查" "审查专家" reviewer_prompt created modified);
   ("architect",
    mkAssistant "architect" "系统架构师" "架构专家" architect_prompt created modified)].

End AssistantStore.

(** ** [WorkflowStep], [Workflow] and [WorkflowManager]

    [WorkflowManager] shares objects: [list.copy] builds a new list that
    holds the same step objects, and [list.append] changes a list in place.
    Lists of steps and steps are therefore objects in a heap, named by
    references; an object is allocated at the end of its heap and never
    freed. *)
Module WorkflowStore.

(** A reference: the position of an object in its heap. *)
Definition ref := nat.

(** The dataclass [WorkflowStep]; [asdict(step)] has the same three entries,
    so the record also stands for the step's dictionary in the file. *)
Record WorkflowStep := mkStep {
  assistants : list string;
  is_parallel : bool;
  step_id : string
}.

(** The dataclass [Workflow]; [steps] refers to a list object. *)
Record Workflow := mkWorkflow {
  name : string;
  steps : ref;
  description : string;
  created_at : string;
  modified_at : string
}.

(** What [Workflow.to_dict] returns, and an entry of the file: plain data,
    no reference into the heap.  An optional entry that is absent from the
    file reads as the empty string, which is what [load_workflows] and
    [WorkflowStep] put in its place.  A file whose entries have another
    shape makes [load_workflows] stop at the first of them; such files are
    outside the types used here. *)
Record WorkflowDict := mkWorkflowDict {
  d_name : string;
  d_steps : list WorkflowStep;
  d_description : string;
  d_created_at : string;
  d_modified_at : string
}.

(** The manager with the world it acts on. *)
Record State := mkState {
  step_objs : list WorkflowStep;      (* heap of [WorkflowStep] objects *)
  list_objs : list (list ref);        (* heap of lists of step references *)
  workflows : PyDict.dict Workflow;   (* [self.workflows] *)
  current_workflow : ref;             (* [self.current_workflow], a list *)
  workflow_file : option (PyDict.dict WorkflowDict);
                                      (* [workflows.json], once parsed *)
  ticks : nat                         (* readings of the clock taken so far *)
}.

Definition with_step_objs (v : list WorkflowStep) (s : State) : State :=
  mkState v (list_objs s) (workflows s) (current_workflow s)
          (workflow_file s) (ticks s).
Definition with_list_objs (v : list (list ref)) (s : State) : State :=
  mkState (step_objs s) v (workflows s) (current_workflow s)
          (workflow_file s) (ticks s).
Definition with_workflows (v : PyDict.dict Workflow) (s : State) : State :=
  mkState (step_objs s) (list_objs s) v (current_workflow s)
          (workflow_file s) (ticks s).
Definition with_current_workflow (v : ref) (s : State) : State :=
  mkState (step_objs s) (list_objs s) (workflows s) v
          (workflow_file s) (ticks s).
Definition with_workflow_file (v : option (PyDict.dict WorkflowDict))
    (s : State) : State :=
  mkState (step_objs s) (list_objs s) (workflows s) (current_workflow s)
          v (ticks s).
Definition with_ticks (v : nat) (s : State) : State :=
  mkState (step_objs s) (list_objs s) (workflows s) (current_workflow s)
          (workflow_file s) v.

(** Reading the heap.  A reference held by a running program always names
    an object; the defaults are for references that name none. *)
Definition deref_list (s : State) (r : ref) : list ref :=
  default [] (list_objs s !! r).

Definition deref_steps (s : State) (r : ref) : list WorkflowStep :=
  omap (fun q => step_objs s !! q) (deref_list s r).

(** A new list object. *)
Definition alloc_list (l : list ref) (s : State) : ref * State :=
  (length (list_objs s), with_list_objs (list_objs s ++ [l]) s).

(** [lst.append(x)] on the list object [r]. *)
Definition list_append (r : ref) (x : ref) (s : State) : State :=
  with_list_objs (alter (fun l => l ++ [x]) r (list_objs s)) s.

(** Attribute assignment on the step object [q]: [f] gives the new values
    of the three attributes. *)
Definition step_assign (q : ref) (f : WorkflowStep -> WorkflowStep)
    (s : State) : State :=
  with_step_objs (alter f q (step_objs s)) s.

Section Manager.

(** [datetime.now().strftime("%Y%m%d%H%M%S%f")] at the [n]-th reading of
    the clock. *)
Variable strftime_now : nat -> string.

(** The defaults of [Workflow.created_at] and [Workflow.modified_at],
    evaluated once when the class is defined. *)
Variable default_created_at default_modified_at : string.

(** [WorkflowStep(assistants, is_parallel, step_id)] with [__post_init__]:
    an empty [step_id] is replaced by a reading of the clock. *)
Definition new_step (assistants : list string) (is_parallel : bool)
    (step_id : string) (s : State) : ref * State :=
  let sid := if String.eqb step_id "" then strftime_now (ticks s) else step_id in
  let t := if String.eqb step_id "" then S (ticks s) else ticks s in
  (length (step_objs s),
   with_ticks t
     (with_step_objs (step_objs s ++ [mkStep assistants is_parallel sid]) s)).

(** The comprehension that builds one [WorkflowStep] from each step
    dictionary of the file, in order. *)
Fixpoint new_steps (ds : list WorkflowStep) (s : State) : list ref * State :=
  match ds with
  | [] => ([], s)
  | d :: r =>
      let '(q, s1) := new_step (assistants d) (is_parallel d) (step_id d) s in
      let '(qs, s2) := new_steps r s1 in
      (q :: qs, s2)
  end.

(** [Workflow.to_dict] *)
Definition to_dict (s : State) (w : Workflow) : WorkflowDict :=
  mkWorkflowDict (name w) (deref_steps s (steps w)) (description w)
                 (created_at w) (modified_at w).

(** [save_workflows]: the whole store is written to the file.  Input/output
    faults, which the method logs and turns into [False], are not
    modelled. *)
Definition save_workflows (s : State) : bool * State :=
  let data := map (fun kw => (kw.1, to_dict s kw.2)) (workflows s) in
  (true, with_workflow_file (Some data) s).

(** The body of the loop of [load_workflows] for one value of the file. *)
Definition load_entry (s : State) (d : WorkflowDict) : State :=
  let '(qs, s1) := new_steps (d_steps d) s in
  let '(l, s2) := alloc_list qs s1 in
  let workflow :=
    mkWorkflow (d_name d) l (d_description d) (d_created_at d)
               (d_modified_at d) in
  with_workflows (PyDict.set (name workflow) workflow (workflows s2)) s2.

(** [load_workflows]: nothing happens when the file does not exist. *)
Definition load_workflows (s : State) : State :=
  match workflow_file s with
  | None => s
  | Some data => fold_left load_entry (PyDict.values data) s
  end.

(** [WorkflowManager()] in a world whose file is [file]. *)
Definition init (file : option (PyDict.dict WorkflowDict)) : State :=
  load_workflows (mkState [] [[]] [] 0 file 0).

(** [add_step(assistants, is_parallel)]; the [WorkflowError]s are caught by
    the method, which then returns [False]. *)
Definition add_step (assistants : list string) (is_parallel : bool)
    (s : State) : bool * State :=
  match assistants with
  | [] => (false, s)
  | _ =>
      let assistants := filter (fun a => a <> "") assistants in
      match assistants with
      | [] => (false, s)
      | _ =>
          let '(step, s1) := new_step assistants is_parallel "" s in
          (true, list_append (current_workflow s1) step s1)
      end
  end.

(** [save_current_workflow(name, description)] *)
Definition save_current_workflow (name description : string) (s : State)
  : bool * State :=
  if String.eqb name "" then (false, s)
  else
    match deref_list s (current_workflow s) with
    | [] => (false, s)
    | draft =>
        let '(l, s1) := alloc_list draft s in
        let workflow :=
          mkWorkflow name l description default_created_at
                     default_modified_at in
        let s2 := with_workflows (PyDict.set name workflow (workflows s1)) s1 in
        (true, (save_workflows s2).2)
    end.

(** [load_workflow(name)] *)
Definition load_workflow (name : string) (s : State) : bool * State :=
  match PyDict.get name (workflows s) with
  | None => (false, s)
  | Some w =>
      let '(l, s1) := alloc_list (deref_list s (steps w)) s in
      (true, with_current_workflow l s1)
  end.

(** [clear_current_workflow()] *)
Definition clear_current_workflow (s : State) : State :=
  let '(l, s1) := alloc_list [] s in
  with_current_workflow l s1.

(** The states a manager goes through: it is created, then its methods are
    called. *)
Inductive reachable : State -> Prop :=
| reach_init file :
    reachable (init file)
| reach_add_step s assistants is_parallel :
    reachable s -> reachable (add_step assistants is_parallel s).2
| reach_save_current s name description :
    reachable s -> reachable (save_current_workflow name description s).2
| reach_load s name :
    reachable s -> reachable (load_workflow name s).2
| reach_clear s :
    reachable s -> reachable (clear_current_workflow s)
| reach_save s :
    reachable s -> reachable (save_workflows s).2.

(** A change of the draft: the two methods that change it in place or
    replace it, and an assignment to the attributes of the step object
    found at a position of the draft ([draft[i].is_parallel = ...]), which
    no method of the manager performs. *)
Inductive draft_op :=
| OpAddStep (assistants : list string) (is_parallel : bool)
| OpClear
| OpAssign (i : nat) (f : WorkflowStep -> WorkflowStep).

Definition assign_in_draft (i : nat) (f : WorkflowStep -> WorkflowStep)
    (s : State) : State :=
  match deref_list s (current_workflow s) !! i with
  | Some q => step_assign q f s
  | None => s
  end.

Definition run_op (s : State) (o : draft_op) : State :=
  match o with
  | OpAddStep a p => (add_step a p s).2
  | OpClear => clear_current_workflow s
  | OpAssign i f => assign_in_draft i f s
  end.

(** The changes the manager's own methods make to the draft. *)
Definition method_op (o : draft_op) : bool :=
  match o with
  | OpAssign _ _ => false
  | _ => true
  end.

(** What the store holds under [name]: the steps of the workflow, read
    through the heap. *)
Definition stored_steps (s : State) (name : string)
  : option (list WorkflowStep) :=
  match PyDict.get name (workflows s) with
  | Some w => Some (deref_steps s (steps w))
  | None => None
  end.

(** What the round trip through the file is to keep of a step: its kind
    and its assistants, in order. *)
Definition kind (st : WorkflowStep) : bool * list string :=
  (is_parallel st, assistants st).

(** The invariant of the manager: every reference names an object, a
    workflow is stored under its own name, no stored workflow shares its
    list of steps with the draft, and the keys of the store are distinct. *)
Definition valid_lists (s : State) : Prop :=
  Forall (Forall (fun q => q < length (step_objs s))) (list_objs s).

Definition valid_entry (s : State) (kw : string * Workflow) : Prop :=
  (name (kw.2) = kw.1) /\
  (steps (kw.2) < length (list_objs s)) /\
  (steps (kw.2) <> current_workflow s).

Definition wf_state (s : State) : Prop :=
  (current_workflow s < length (list_objs s)) /\
  valid_lists s /\
  Forall (valid_entry s) (workflows s) /\
  NoDup (PyDict.keys (workflows s)).

End Manager.

(** A store to run the operations on: the workflow "W" with one
    sequential step, as read from the file at start-up. *)
Definition sample_file : option (PyDict.dict WorkflowDict) :=
  Some [("W", mkWorkflowDict "W" [mkStep ["reviewer"] false "s1"] "" "" "")].

Definition sample_clock (n : nat) : string := "20240101000000000000".

Definition sample_state : State := init sample_clock sample_file.


(** The last entry of a file that has the name [name]. *)
Definition last_named (name : string) (ds : list WorkflowDict)
  : option WorkflowDict :=
  PyDict.get name (rev (map (fun d => (d_name d, d)) ds)).

(** What the draft holds: the steps of [self.current_workflow]. *)
Definition draft (s : State) : list WorkflowStep :=
  deref_steps s (current_workflow s).

End WorkflowStore.

(** ** [ChatManager]: the execution engine *)
Module Engine.

Import WorkflowStore.

Inductive SystemState := UNINITIALIZED | INITIALIZED | ERROR.

(** The dataclass [Message]. *)
Record Message := mkMessage {
  role : string;
  content : string;
  timestamp : string
}.

(** The fields of [ChatManager] that [process_message] reads or writes.
    The client object is represented by the service below. *)
Record ChatManager := mkChat {
  conversation_history : list Message;
  system_state : SystemState
}.

(** The keyword arguments of [client.chat.completions.create]: the model
    and the list of messages, each a role and a content.  The content is a
    [str] or [None]: the engine passes on what it got from the call
    before. *)
Record Request := mkRequest {
  model : string;
  messages : list (string * option string)
}.

(** What one call of the client comes to inside [get_assistant_response]:
    the value of [response.choices[0].message.content], which the client
    declares as an optional [str] and the method returns unchecked, so a
    text or [None]; or an exception raised inside the [try], of which the
    code uses [str(e)] only. *)
Inductive Response :=
| Content (text : string)
| NoContent
| Failure (cause : string).

(** The exceptions of a run: the [APIError]s the engine raises, and the
    [TypeError] of [str.join] over an item that is no [str]. *)
Inductive Exn :=
| APIError (msg : string)
| TypeError (msg : string).

(** [str(e)] *)
Definition str (e : Exn) : string :=
  match e with APIError msg => msg | TypeError msg => msg end.

Inductive result (A : Type) :=
| Return (a : A)
| Raise (e : Exn).
Arguments Return {A} a.
Arguments Raise {A} e.

Definition is_failure (r : Response) : bool :=
  match r with Failure _ => true | _ => false end.

(** The value [response.choices[0].message.content] of an answer. *)
Definition text_of (r : Response) : option string :=
  match r with Content text => Some text | _ => None end.

Definition raised {A} (o : result A) : option Exn :=
  match o with Raise e => Some e | Return _ => None end.

Definition returned {A} (o : result A) : option A :=
  match o with Return a => Some a | Raise _ => None end.

(** The two literals the engine puts in front of a cause. *)
Definition response_failed : string := "获取助手响应失败: ".
Definition processing_failed : string := "处理消息失败: ".
Definition not_initialized : string := "系统未初始化".

(** The [try] of [get_assistant_response] around one answer of the
    client: the content is returned as it is, text or [None]; a failure is
    raised again as an [APIError] that carries its cause. *)
Definition outcome (r : Response) : result (option string) :=
  match r with
  | Content text => Return (Some text)
  | NoContent => Return None
  | Failure cause => Raise (APIError (response_failed +:+ cause))
  end.

(** A recorded call that failed. *)
Definition failed (c : Request * Response) : bool := is_failure c.2.

(** A recorded call that was answered, without text. *)
Definition no_text (c : Request * Response) : bool :=
  match c.2 with NoContent => true | _ => false end.

(** The position of the first item that is [None]. *)
Fixpoint first_none (items : list (option string)) : option nat :=
  match items with
  | [] => None
  | None :: _ => Some 0
  | Some _ :: r => S <$> first_none r
  end.

(** The message of the [TypeError] of [str.join] for an item that is
    [None]. *)
Definition not_a_str (i : nat) : string :=
  "sequence item " +:+ PyStr.str_nat i
  +:+ ": expected str instance, NoneType found".

(** [sep.join(items)] for items that are [str] or [None]: the built-in
    joins a list of [str] and raises a [TypeError] at the first item that is
    none. *)
Definition str_join (sep : string) (items : list (option string))
  : result string :=
  match first_none items with
  | Some i => Raise (TypeError (not_a_str i))
  | None => Return (PyStr.join sep (omap (fun x => x) items))
  end.

(** The system context of a request. *)
Definition system_context (req : Request) : string :=
  default "" (PyDict.get "system" (messages req) ≫= (fun x => x)).

(** The request [get_assistant_response] builds. *)
Definition request (message : option string) (assistant_id model : string)
  : Request :=
  mkRequest model
    [("system", Some ("You are " +:+ assistant_id)); ("user", message)].

Section Service.

(** The remote service: a state [W] that every call may read and change.
    A call made twice with the same request need not answer twice the
    same. *)
Context {W : Type}.
Variable create : Request -> W -> Response * W.

(** Which of the failures of a concurrent batch is raised by
    [asyncio.gather]: the one that happens first, which the state of the
    world decides. *)
Variable race : W -> nat.

(** The default of [Message.timestamp], evaluated once when the class is
    defined. *)
Variable default_timestamp : string.

(** The world of a run: the service, and the record of the calls made, in
    the order in which the engine issues them. *)
Record Net := mkNet {
  world : W;
  calls : list (Request * Response)
}.

(** [get_assistant_response(message, assistant_id, model)] *)
Definition get_assistant_response (message : option string)
    (assistant_id model : string) (n : Net)
  : result (option string) * Net :=
  let req := request message assistant_id model in
  let '(r, w) := create req (world n) in
  (outcome r, mkNet w (calls n ++ [(req, r)])).

(** The tasks of a parallel step: one call for each assistant, all of them
    on [message], started in the order of the list. *)
Fixpoint run_tasks (message : option string) (model : string)
    (ids : list string) (n : Net)
  : list (result (option string)) * Net :=
  match ids with
  | [] => ([], n)
  | assistant_id :: r =>
      let '(o, n1) := get_assistant_response message assistant_id model n in
      let '(os, n2) := run_tasks message model r n1 in
      (o :: os, n2)
  end.

(** [asyncio.gather] awaited on the tasks: the results in the order of the tasks,
    or the exception of the task that failed first. *)
Definition gather (outs : list (result (option string))) (n : Net)
  : result (list (option string)) :=
  let failures := omap raised outs in
  match failures with
  | [] => Return (omap returned outs)
  | e :: _ =>
      Raise (default e (failures !! (race (world n) mod length failures)))
  end.

(** The loop of a sequential step: the response of a call, text or
    [None], is appended to the results and is the message of the next
    call. *)
Fixpoint run_sequential (ids : list string) (current_message : option string)
    (results : list (option string)) (model : string) (n : Net)
  : result (option string * list (option string)) * Net :=
  match ids with
  | [] => (Return (current_message, results), n)
  | assistant_id :: r =>
      match get_assistant_response current_message assistant_id model n with
      | (Return response, n1) =>
          run_sequential r response (results ++ [response]) model n1
      | (Raise e, n1) => (Raise e, n1)
      end
  end.

(** The body of the loop over the steps.  In a parallel step the join of
    the results of the step raises when one of them is [None]. *)
Definition run_step (step : WorkflowStep) (current_message : option string)
    (results : list (option string)) (model : string) (n : Net)
  : result (option string * list (option string)) * Net :=
  if is_parallel step then
    let '(outs, n1) := run_tasks current_message model (assistants step) n in
    match gather outs n1 with
    | Return step_results =>
        match str_join PyStr.nl step_results with
        | Return joined => (Return (Some joined, results ++ step_results), n1)
        | Raise e => (Raise e, n1)
        end
    | Raise e => (Raise e, n1)
    end
  else run_sequential (assistants step) current_message results model n.

Fixpoint run_steps (workflow : list WorkflowStep)
    (current_message : option string) (results : list (option string))
    (model : string) (n : Net)
  : result (option string * list (option string)) * Net :=
  match workflow with
  | [] => (Return (current_message, results), n)
  | step :: r =>
      match run_step step current_message results model n with
      | (Return (current_message, results), n1) =>
          run_steps r current_message results model n1
      | (Raise e, n1) => (Raise e, n1)
      end
  end.

Definition append_message (role content : string) (cm : ChatManager)
  : ChatManager :=
  mkChat (conversation_history cm ++ [mkMessage role content default_timestamp])
         (system_state cm).

(** [process_message(message, workflow, model)]: every exception raised
    inside the [try], by a call or by a join, is raised again as an
    [APIError] that carries its text. *)
Definition process_message (cm : ChatManager) (message : string)
    (workflow : list WorkflowStep) (model : string) (n : Net)
  : result string * ChatManager * Net :=
  match system_state cm with
  | INITIALIZED =>
      let cm1 := append_message "user" message cm in
      match run_steps workflow (Some message) [] model n with
      | (Return (_, results), n1) =>
          match str_join PyStr.nl results with
          | Return final_response =>
              (Return final_response,
               append_message "assistant" final_response cm1, n1)
          | Raise e =>
              (Raise (APIError (processing_failed +:+ str e)), cm1, n1)
          end
      | (Raise e, n1) =>
          (Raise (APIError (processing_failed +:+ str e)), cm1, n1)
      end
  | _ => (Raise (APIError not_initialized), cm, n)
  end.

(** *** The run as the specification words it

    [completes id current model w r w'] reads: asked for a completion of
    [current] by assistant [id], the service in state [w] answers the text
    [r] and is left in state [w']. *)
Definition completes (id current model : string) (w : W) (r : string)
    (w' : W) : Prop :=
  create (request (Some current) id model) w = (Content r, w').

(** A parallel step: one completion for each assistant, every one of the
    same [current]; the results are in the order of the assistants. *)
Inductive spec_parallel (current model : string)
  : list string -> W -> list string -> W -> Prop :=
| spec_par_nil w :
    spec_parallel current model [] w [] w
| spec_par_cons id ids w r w1 rs w2 :
    completes id current model w r w1 ->
    spec_parallel current model ids w1 rs w2 ->
    spec_parallel current model (id :: ids) w (r :: rs) w2.

(** A sequential step: each assistant completes the current message, and
    its result is the current message of the next. *)
Inductive spec_sequential (model : string)
  : list string -> string -> W -> list string -> string -> W -> Prop :=
| spec_seq_nil current w :
    spec_sequential model [] current w [] current w
| spec_seq_cons id ids current w r w1 rs last w2 :
    completes id current model w r w1 ->
    spec_sequential model ids r w1 rs last w2 ->
    spec_sequential model (id :: ids) current w (r :: rs) last w2.

(** The steps in order, from [current]; the results accumulate. *)
Inductive spec_steps (model : string)
  : list WorkflowStep -> string -> W -> list string -> W -> Prop :=
| spec_steps_nil current w :
    spec_steps model [] current w [] w
| spec_steps_parallel step steps current w rs w1 rest w2 :
    is_parallel step = true ->
    spec_parallel current model (assistants step) w rs w1 ->
    spec_steps model steps (PyStr.join PyStr.nl rs) w1 rest w2 ->
    spec_steps model (step :: steps) current w (rs ++ rest) w2
| spec_steps_sequential step steps current w rs last w1 rest w2 :
    is_parallel step = false ->
    spec_sequential model (assistants step) current w rs last w1 ->
    spec_steps model steps last w1 rest w2 ->
    spec_steps model (step :: steps) current w (rs ++ rest) w2.

(** [run(initialMessage, steps, model)] returns [final] and leaves the
    session as [cm'] and the service in [w']. *)
Definition spec_run (cm : ChatManager) (initial_message : string)
    (steps : list WorkflowStep) (model : string) (w : W)
    (final : string) (cm' : ChatManager) (w' : W) : Prop :=
  exists results,
    spec_steps model steps initial_message w results w' /\
    final = PyStr.join PyStr.nl results /\
    conversation_history cm' =
      conversation_history cm ++
        [mkMessage "user" initial_message default_timestamp;
         mkMessage "assistant" final default_timestamp] /\
    system_state cm' = system_state cm.

End Service.

Arguments mkNet {W} world calls.
Arguments world {W} n.
Arguments calls {W} n.

(** The assistant ids of a workflow, step after step. *)
Definition all_ids (workflow : list WorkflowStep) : list string :=
  concat (map assistants workflow).

(** The call [c] is one made for an assistant of [ids], with that
    assistant's id after ["You are "] as its system context. *)
Definition issued (model : string) (ids : list string)
    (c : Request * Response) : Prop :=
  exists id current, id ∈ ids /\ c.1 = request current id model.

(** The error [e] is the one raised for a failed call of [new]. *)
Definition caused_by (e : Exn) (new : list (Request * Response)) : Prop :=
  exists req cause,
    (req, Failure cause) ∈ new /\ e = APIError (response_failed +:+ cause).

(** The calls [batch] are one call, or the calls of one parallel step. *)
Definition last_batch (model : string) (workflow : list WorkflowStep)
    (batch : list (Request * Response)) : Prop :=
  (exists c, batch = [c]) \/
  exists step current,
    step ∈ workflow /\ is_parallel step = true /\
    map fst batch = map (fun id => request current id model) (assistants step).

(** The calls [new] of a run stop with the step in which a call failed:
    calls that succeeded, then the failed call alone or the batch of the
    parallel step it belongs to. *)
Definition stops_at_failure (model : string) (workflow : list WorkflowStep)
    (new : list (Request * Response)) : Prop :=
  exists pre batch,
    new = pre ++ batch /\
    Forall (fun c => failed c = false) pre /\
    Exists (fun c => failed c = true) batch /\
    last_batch model workflow batch.



(** *** Services and sessions to run the engine on *)

(** A service that answers from a script: the state is the list of the
    answers still to give, and a call beyond the script fails. *)
Definition scripted (req : Request) (w : list Response)
  : Response * list Response :=
  match w with
  | [] => (Failure "no answer", [])
  | r :: rest => (r, rest)
  end.

(** A service that answers every call with its own system context. *)
Definition persona_echo (req : Request) (w : unit) : Response * unit :=
  (Content (system_context req), w).


Definition sample_chat : ChatManager := mkChat [] INITIALIZED.

(** A parallel step of two assistants, then a sequential step of one. *)
Definition sample_workflow : list WorkflowStep :=
  [mkStep ["A"; "B"] true "s1"; mkStep ["C"] false "s2"].

Definition review_workflow : list WorkflowStep :=
  [mkStep ["reviewer"] false "s1"].

Definition first_failure (w : list Response) : nat := 0.


(** *** The rest of [ChatManager] *)

(** The texts of the calls that were answered with a text, in order. *)
Definition answers (new : list (Request * Response)) : list string :=
  omap (fun c => text_of c.2) new.

(** [Config.DEFAULT_API_BASE] *)
Definition DEFAULT_API_BASE : string := "https://open.api.gu28.top/v1".

(** [ChatManager] with the fields [initialize] writes; [C] is the type of
    the client objects. *)
Record ChatSession (C : Type) := mkSession {
  api_key : string;
  api_base : string;
  client : option C;
  chat : ChatManager
}.
Arguments mkSession {C} api_key api_base client chat.
Arguments api_key {C} c.
Arguments api_base {C} c.
Arguments client {C} c.
Arguments chat {C} c.

(** [ChatManager()] *)
Definition new_session {C : Type} : ChatSession C :=
  mkSession "" DEFAULT_API_BASE None (mkChat [] UNINITIALIZED).

(** [initialize(api_key, api_base)]; [OpenAI] is the constructor of the
    client, [None] when it raises.  The key and the base are stored before
    the constructor runs; on an exception the state becomes [ERROR] and the
    client stays the one there was. *)
Definition initialize {C : Type} (OpenAI : string -> string -> option C)
    (key base : string) (s : ChatSession C) : bool * ChatSession C :=
  match OpenAI key base with
  | Some c =>
      (true,
       mkSession key base (Some c)
                 (mkChat (conversation_history (chat s)) INITIALIZED))
  | None =>
      (false,
       mkSession key base (client s)
                 (mkChat (conversation_history (chat s)) ERROR))
  end.

(** [clear_history()] *)
Definition clear_history {C : Type} (s : ChatSession C) : ChatSession C :=
  mkSession (api_key s) (api_base s) (client s)
            (mkChat [] (system_state (chat s))).




End Engine.

(** ** [ChatInterface]: the handlers of the user interface

    The handlers are the closures of [create_interface]; each is given the
    values of its input components and returns the values of its output
    components.  The managers and the service they act on are passed and
    returned.  A selection component with nothing selected gives [None]. *)
Module Interface.

Import AssistantStore Engine.

(** [not x] for the value of a selection component. *)
Definition falsy (x : option string) : bool :=
  match x with
  | None => true
  | Some v => String.eqb v ""
  end.

(** One entry of [get_assistant_choices]: the name, then the role in
    brackets. *)
Definition choice (a : Assistant) : string :=
  AssistantStore.name a +:+ " (" +:+ AssistantStore.role a +:+ ")".

(** [get_assistant_choices()] *)
Definition get_assistant_choices (m : AssistantManager) : list string :=
  map choice (get_all_assistants m).

(** [load_assistant_config(assistant_id, is_new)] *)
Definition load_assistant_config (assistant_id : option string)
    (is_new : bool) (m : AssistantManager) : string * string * string :=
  if is_new || falsy assistant_id then ("", "", "")
  else
    match get_assistant (default "" assistant_id) m with
    | Some assistant =>
        (AssistantStore.name assistant, AssistantStore.role assistant,
         AssistantStore.prompt assistant)
    | None => ("", "", "")
    end.

(** The handler of the delete button, the closure [delete_assistant] of
    [create_interface]; it has another name here than the method of the
    manager it calls. *)
Definition delete_selected (assistant_id : option string)
    (m : AssistantManager) : (string * list string) * AssistantManager :=
  if falsy assistant_id then (("请先选择助手", get_assistant_choices m), m)
  else
    let '(success, m1) :=
      AssistantStore.delete_assistant (default "" assistant_id) m in
    ((if success then "删除成功" else "删除失败", get_assistant_choices m1),
     m1).

(** A row of the chat component: the message of the user and the answer
    shown for it. *)
Definition row : Type := string * option string.

(** The strings [format_conversation_log] collects for the [i]-th row. *)
Definition format_row (i : nat) (r : row) : list string :=
  ("[对话 " +:+ PyStr.str_nat i +:+ "]" +:+ PyStr.nl +:+ "用户: " +:+ r.1
   +:+ PyStr.nl)
  :: (if falsy r.2 then []
      else ["助手: " +:+ default "" r.2 +:+ PyStr.nl]).

(** [format_conversation_log(history)] *)
Definition format_conversation_log (history : list row) : string :=
  match history with
  | [] => "暂无对话记录"
  | _ =>
      PyStr.join PyStr.nl
        (concat (imap (fun i r => format_row (S i) r) history))
  end.

Section Handlers.

(** The parameters of the assistant store. *)
Variable lower : string -> string.
Variable default_created_at default_modified_at : string.
Variable refuses_assignment : string -> bool.

(** The client objects, their constructor, and the service behind each
    client. *)
Context {C W : Type}.
Variable OpenAI : string -> string -> option C.
Variable create : C -> Request -> W -> Response * W.
Variable race : W -> nat.
Variable default_timestamp : string.

(** [conversation_log.value], the value the log component was built with. *)
Variable conversation_log_value : option string.

(** [save_assistant_config(is_new, name, role, prompt, current_id)]; [now]
    is the reading of the clock [update_assistant] takes. *)
Definition save_assistant_config (is_new : bool) (name role prompt : string)
    (current_id : option string) (now : string) (m : AssistantManager)
  : (string * list string) * AssistantManager :=
  if String.eqb name "" || String.eqb role "" || String.eqb prompt "" then
    (("请填写完整信息", get_assistant_choices m), m)
  else if is_new then
    let '(success, m1) :=
      add_assistant lower default_created_at default_modified_at
                    name role prompt m in
    ((if success then "新助手创建成功" else "创建失败",
      get_assistant_choices m1), m1)
  else
    let current_id :=
      if falsy current_id then derive_id lower name
      else default "" current_id in
    let '(success, m1) :=
      update_assistant refuses_assignment current_id
        [("name", name); ("role", role); ("prompt", prompt)] now m in
    ((if success then "助手配置更新成功" else "更新失败",
      get_assistant_choices m1), m1).

(** [init_system(api_key_value, api_base_value, model_value)] *)
Definition init_system (api_key_value api_base_value model_value : string)
    (s : ChatSession C) : string * ChatSession C :=
  if String.eqb api_key_value "" then ("请输入API Key", s)
  else
    let '(success, s1) := initialize OpenAI api_key_value api_base_value s in
    (if success then "系统初始化完成" else "初始化失败，请检查配置", s1).

(** [process_message_with_log(message, history, workflow_name, model)]:
    the rows of the chat component, the value of the file component, and
    the text of the log.  [ws] is the workflow manager, of which the
    handler passes the draft to [process_message]. *)
Definition process_message_with_log (message : string) (history : list row)
    (workflow_name model : string) (ws : WorkflowStore.State)
    (s : ChatSession C) (n : Net)
  : (list row * option string * option string) * ChatSession C * Net :=
  if String.eqb message "" then
    ((history, None, conversation_log_value), s, n)
  else
    match client s with
    | None =>
        let shown := history ++ [(message, Some "请先初始化系统")] in
        ((shown, None, Some (format_conversation_log shown)), s, n)
    | Some c =>
        if String.eqb workflow_name "" then
          let shown := history ++ [(message, Some "请先选择工作流")] in
          ((shown, None, Some (format_conversation_log shown)), s, n)
        else
          match process_message (create c) race default_timestamp (chat s)
                  message (WorkflowStore.draft ws) model n with
          | (Return response, cm, n1) =>
              let shown := history ++ [(message, Some response)] in
              ((shown, None, Some (format_conversation_log shown)),
               mkSession (api_key s) (api_base s) (client s) cm, n1)
          | (Raise e, cm, n1) =>
              let shown := history ++ [(message, Some ("错误: " +:+ str e))] in
              ((shown, None, Some (format_conversation_log shown)),
               mkSession (api_key s) (api_base s) (client s) cm, n1)
          end
    end.

(** The sessions the interface goes through: the one [ChatManager()]
    builds, then the handlers that write it. *)
Inductive session_reachable : ChatSession C -> Prop :=
| session_new :
    session_reachable new_session
| session_init key base model s :
    session_reachable s ->
    session_reachable (init_system key base model s).2
| session_send message history workflow_name model ws s n :
    session_reachable s ->
    session_reachable
      (process_message_with_log message history workflow_name model ws s n).1.2
| session_clear s :
    session_reachable s -> session_reachable (clear_history s).

End Handlers.

(** A constructor of clients that accepts every key but ["bad"], and the
    scripted service behind each client. *)
Definition sample_OpenAI (key base : string) : option unit :=
  if String.eqb key "bad" then None else Some tt.

Definition sample_create (c : unit) : Request -> list Response
                                      -> Response * list Response :=
  scripted.

End Interface.

(** * Properties *)

(** ** Lists *)
Module ListFacts.

Lemma omap_cons_eq {A B} (f : A -> option B) (x : A) (l : list A) :
  omap f (x :: l) =
  match f x with Some y => y :: omap f l | None => omap f l end.
Proof. done. Qed.

(** Looking up the references [n, n+1, ...] of the objects [cs] allocated
    after [pre] gives [cs] back. *)
Lemma omap_lookup_seq {A} (pre cs post : list A) :
  omap (fun q => (pre ++ cs ++ post) !! q) (seq (length pre) (length cs)) = cs.
Proof.
  revert pre. induction cs as [|c cs IH]; intros pre; [done |].
  cbn [length seq]. rewrite omap_cons_eq.
  rewrite lookup_app_r, Nat.sub_diag by lia. cbn [app lookup list_lookup].
  f_equal. specialize (IH (pre ++ [c])).
  rewrite length_app, Nat.add_1_r in IH.
  rewrite <- (assoc_L (++)) in IH. exact IH.
Qed.

(** Objects allocated later do not change what valid references name. *)
Lemma omap_lookup_app {A} (pre post : list A) (l : list nat) :
  Forall (fun q => q < length pre) l ->
  omap (fun q => (pre ++ post) !! q) l = omap (fun q => pre !! q) l.
Proof.
  induction 1 as [|q l Hq _ IH]; [done |].
  rewrite !omap_cons_eq, IH, lookup_app_l by done. done.
Qed.

End ListFacts.

(** ** Dictionaries *)
Module DictFacts.

Import PyDict.

Lemma eqb_refl_true (k : string) : String.eqb k k = true.
Proof. apply String.eqb_refl. Qed.

Lemma eqb_false_ne (k k' : string) : k <> k' -> String.eqb k k' = false.
Proof. intros H. by apply String.eqb_neq. Qed.

Lemma get_set_eq {V} (k : string) (v : V) (d : dict V) :
  get k (set k v d) = Some v.
Proof.
  induction d as [|[k' v'] r IH]; simpl.
  - by rewrite eqb_refl_true.
  - destruct (String.eqb k k') eqn:E; simpl; rewrite E; [done | exact IH].
Qed.

Lemma get_set_ne {V} (k j : string) (v : V) (d : dict V) :
  k <> j -> get j (set k v d) = get j d.
Proof.
  intros Hne. induction d as [|[k' v'] r IH]; simpl.
  - rewrite eqb_false_ne; [done | congruence].
  - destruct (String.eqb k k') eqn:E; simpl.
    + apply String.eqb_eq in E. subst k'.
      rewrite eqb_false_ne; [done | congruence].
    + by rewrite IH.
Qed.

Lemma mem_get {V} (k : string) (d : dict V) :
  mem k d = true <-> is_Some (get k d).
Proof.
  unfold mem. destruct (get k d) as [v|].
  - split; [intros _; by exists v | done].
  - split; [done | intros [v Hv]; done].
Qed.

Lemma get_elem_of_keys {V} (k : string) (d : dict V) :
  is_Some (get k d) <-> k ∈ keys d.
Proof.
  unfold keys. induction d as [|[k' v'] r IH]; simpl.
  - split; [intros [? ?]; done | intros H; inversion H].
  - destruct (String.eqb_spec k k') as [->|Hne].
    + split; [intros _; left | intros _; by eexists].
    + rewrite IH. split; [intros H; by right | intros H].
      inversion H; [congruence | done].
Qed.

(** Assigning to a present key keeps the keys and their order. *)
Lemma keys_set_present {V} (k : string) (v : V) (d : dict V) :
  is_Some (get k d) -> keys (set k v d) = keys d.
Proof.
  unfold keys. induction d as [|[k' v'] r IH]; simpl.
  - intros [? ?]; done.
  - destruct (String.eqb_spec k k') as [->|Hne]; simpl; [done |].
    intros H. by rewrite IH.
Qed.

(** Assigning to an absent key appends it. *)
Lemma set_absent {V} (k : string) (v : V) (d : dict V) :
  get k d = None -> set k v d = d ++ [(k, v)].
Proof.
  induction d as [|[k' v'] r IH]; simpl; [done |].
  destruct (String.eqb k k'); [done |].
  intros H. by rewrite IH.
Qed.

Lemma get_app_absent {V} (k : string) (d e : dict V) :
  get k d = None -> get k (d ++ e) = get k e.
Proof.
  induction d as [|[k' v'] r IH]; simpl; [done |].
  destruct (String.eqb k k'); [done | exact IH].
Qed.

Lemma get_app_present {V} (k : string) (d e : dict V) :
  is_Some (get k d) -> get k (d ++ e) = get k d.
Proof.
  induction d as [|[k' v'] r IH]; simpl.
  - intros [? ?]; done.
  - destruct (String.eqb k k'); [done | exact IH].
Qed.

Lemma Forall_set {V} (P : string * V -> Prop) k v (d : PyDict.dict V) :
  Forall P d -> P (k, v) -> Forall P (PyDict.set k v d).
Proof.
  intros Hd Hk. induction Hd as [|[k' v'] r Hx Hr IH]; simpl.
  - by constructor.
  - destruct (String.eqb_spec k k') as [->|Hne]; by constructor.
Qed.

Lemma NoDup_keys_set {V} k v (d : PyDict.dict V) :
  NoDup (PyDict.keys d) -> NoDup (PyDict.keys (PyDict.set k v d)).
Proof.
  intros Hd. destruct (PyDict.get k d) as [x|] eqn:E.
  - rewrite keys_set_present; [done | by rewrite E].
  - rewrite (set_absent _ _ _ E). unfold PyDict.keys.
    rewrite map_app. simpl. apply NoDup_app. split; [done |].
    split; [| apply NoDup_singleton].
    intros x Hx Hin. apply list_elem_of_singleton in Hin. subst x.
    apply get_elem_of_keys in Hx. rewrite E in Hx. by destruct Hx.
Qed.

Lemma get_Some_elem {V} k (v : V) (d : PyDict.dict V) :
  PyDict.get k d = Some v -> (k, v) ∈ d.
Proof.
  induction d as [|[k' v'] r IH]; simpl; [done |].
  destruct (String.eqb_spec k k') as [->|Hne].
  - intros [= ->]. left.
  - intros H. right. by apply IH.
Qed.

End DictFacts.

(** ** The assistant store *)
Module AssistantFacts.

Import AssistantStore DictFacts.

Lemma supplied_snoc key data k v :
  supplied key (data ++ [(k, v)]) =
  if String.eqb key k then Some v else supplied key data.
Proof. unfold supplied. by rewrite rev_unit. Qed.

Ltac case_key k s :=
  destruct (String.eqb_spec k s) as [->|?]; simpl; try done.

(** One field after [setattr]. *)
Lemma setattr_id a k v :
  id (setattr a k v) = if String.eqb k "id" then v else id a.
Proof.
  unfold setattr. case_key k "id". case_key k "name". case_key k "role".
  case_key k "prompt". case_key k "created_at". case_key k "modified_at".
Qed.

Lemma setattr_name a k v :
  name (setattr a k v) = if String.eqb k "name" then v else name a.
Proof.
  unfold setattr. case_key k "id". case_key k "name". case_key k "role".
  case_key k "prompt". case_key k "created_at". case_key k "modified_at".
Qed.

Lemma setattr_role a k v :
  role (setattr a k v) = if String.eqb k "role" then v else role a.
Proof.
  unfold setattr. case_key k "id". case_key k "name". case_key k "role".
  case_key k "prompt". case_key k "created_at". case_key k "modified_at".
Qed.

Lemma setattr_prompt a k v :
  prompt (setattr a k v) = if String.eqb k "prompt" then v else prompt a.
Proof.
  unfold setattr. case_key k "id". case_key k "name". case_key k "role".
  case_key k "prompt". case_key k "created_at". case_key k "modified_at".
Qed.

Lemma setattr_created_at a k v :
  created_at (setattr a k v) =
  if String.eqb k "created_at" then v else created_at a.
Proof.
  unfold setattr. case_key k "id". case_key k "name". case_key k "role".
  case_key k "prompt". case_key k "created_at". case_key k "modified_at".
Qed.

(** A key that is not the name of a field changes nothing. *)
Lemma setattr_other a k v : hasattr k = false -> setattr a k v = a.
Proof.
  unfold hasattr, setattr.
  case_key k "id". case_key k "name". case_key k "role".
  case_key k "prompt". case_key k "created_at". case_key k "modified_at".
Qed.

Section Manager.

Variable lower : string -> string.
Variable default_created_at default_modified_at : string.
Variable refuses_assignment : string -> bool.

Local Abbreviation add_assistant :=
  (add_assistant lower default_created_at default_modified_at).
Local Abbreviation apply_items := (apply_items refuses_assignment).
Local Abbreviation update_assistant := (update_assistant refuses_assignment).

Lemma apply_items_snoc data k v a :
  apply_items (data ++ [(k, v)]) a =
  match apply_items data a with
  | (a1, true) =>
      if refuses_assignment k then (a1, false)
      else (if hasattr k then setattr a1 k v else a1, true)
  | (a1, false) => (a1, false)
  end.
Proof.
  revert a. induction data as [|[k' v'] data IH]; intros a; simpl.
  - by destruct (refuses_assignment k).
  - destruct (refuses_assignment k'); [done | apply IH].
Qed.

(** With no assignment refused the loop comes to its end. *)
Lemma apply_items_completes data a :
  Forall (fun kv => refuses_assignment kv.1 = false) data ->
  (apply_items data a).2 = true.
Proof.
  revert a. induction data as [|[k v] data IH]; intros a H; [done |].
  inversion H as [|? ? Hk Hr]; subst. simpl in *. rewrite Hk. by apply IH.
Qed.

(** A field [proj] named [fname] after the loop over the items. *)
Lemma apply_items_field (proj : Assistant -> string) (fname : string) :
  hasattr fname = true ->
  (forall a k v,
     proj (setattr a k v) = if String.eqb k fname then v else proj a) ->
  forall data a,
    Forall (fun kv => refuses_assignment kv.1 = false) data ->
    proj (apply_items data a).1 = default (proj a) (supplied fname data).
Proof.
  intros Hattr Hset data a.
  induction data as [|[k v] data IH] using rev_ind; intros Hok; [done |].
  rewrite Forall_app, Forall_singleton in Hok. destruct Hok as [Hok Hk].
  simpl in Hk. specialize (IH Hok). pose proof (apply_items_completes data a Hok) as Hc.
  rewrite apply_items_snoc, supplied_snoc.
  destruct (apply_items data a) as [a1 ok]. simpl in *. subst ok.
  rewrite Hk. simpl. rewrite (String.eqb_sym fname k).
  destruct (String.eqb_spec k fname) as [->|Hne].
  - rewrite Hattr, Hset, String.eqb_refl. done.
  - destruct (hasattr k); [| exact IH].
    rewrite Hset. apply String.eqb_neq in Hne. by rewrite Hne.
Qed.

(** Items whose keys are not names of fields leave the assistant as it is. *)
Lemma apply_items_other data a :
  Forall (fun kv => refuses_assignment kv.1 = false) data ->
  Forall (fun kv => hasattr kv.1 = false) data ->
  apply_items data a = (a, true).
Proof.
  revert a. induction data as [|[k v] data IH]; intros a Hr H; [done |].
  inversion H as [|? ? Hk Hd]; subst. inversion Hr as [|? ? Hk' Hr']; subst.
  simpl in *. rewrite Hk, Hk'. by apply IH.
Qed.

(** Adding under an id that is free: the call succeeds, the new assistant
    is stored under the id derived from its name, the other entries stay,
    and the snapshot is saved. *)
Lemma add_assistant_fresh name role prompt m :
  get_assistant (derive_id lower name) m = None ->
  let r := add_assistant name role prompt m in
  r.1 = true /\
  get_assistant (derive_id lower name) r.2 =
    Some (mkAssistant (derive_id lower name) name role prompt
                      default_created_at default_modified_at) /\
  (forall k, k <> derive_id lower name ->
             get_assistant k r.2 = get_assistant k m) /\
  config_assistants r.2 = Some (PyDict.values (assistants r.2)).
Proof.
  unfold get_assistant, AssistantStore.add_assistant, PyDict.mem.
  intros ->. simpl. repeat split.
  - apply get_set_eq.
  - intros k Hk. apply get_set_ne. congruence.
Qed.

(** C6: the id of a new assistant is its name lower-cased with every space
    replaced by an underscore; when that id is present in the store,
    [add_assistant] returns [False] and leaves the manager, the entry
    stored under the id and the saved configuration as they were. *)
Theorem add_assistant_duplicate name role prompt m a :
  get_assistant (PyStr.replace_space (lower name)) m = Some a ->
  derive_id lower name = PyStr.replace_space (lower name) /\
  add_assistant name role prompt m = (false, m) /\
  get_assistant (derive_id lower name) (add_assistant name role prompt m).2
    = Some a.
Proof.
  unfold get_assistant, AssistantStore.add_assistant, PyDict.mem, derive_id.
  intros H. rewrite H. simpl. by rewrite H.
Qed.

(** C7, as the code has it: on an existing id, with no item of [data]
    whose assignment is refused, [update_assistant] succeeds; every item
    whose key names a field of the assistant is applied, [id] and
    [created_at] included, the last value given to a key standing;
    [modified_at] is the time of the call whatever [data] gives for it; the
    assistant stays under the same key, the keys of the store and the other
    entries are unchanged; and the [id] field is unchanged when [data] has
    no [id] item. *)
Theorem update_assistant_fields assistant_id data now m a :
  get_assistant assistant_id m = Some a ->
  Forall (fun kv => refuses_assignment kv.1 = false) data ->
  exists a',
    let r := update_assistant assistant_id data now m in
    r.1 = true /\
    get_assistant assistant_id r.2 = Some a' /\
    name a' = default (name a) (supplied "name" data) /\
    role a' = default (role a) (supplied "role" data) /\
    prompt a' = default (prompt a) (supplied "prompt" data) /\
    id a' = default (id a) (supplied "id" data) /\
    created_at a' = default (created_at a) (supplied "created_at" data) /\
    modified_at a' = now /\
    (supplied "id" data = None -> id a' = id a) /\
    PyDict.keys (assistants r.2) = PyDict.keys (assistants m) /\
    (forall k, k <> assistant_id -> get_assistant k r.2 = get_assistant k m).
Proof.
  unfold get_assistant, AssistantStore.update_assistant.
  intros H Hok. rewrite H.
  pose proof (apply_items_completes data a Hok) as Hc.
  pose proof (apply_items_field name "name" eq_refl setattr_name data a Hok)
    as Hname.
  pose proof (apply_items_field role "role" eq_refl setattr_role data a Hok)
    as Hrole.
  pose proof (apply_items_field prompt "prompt" eq_refl setattr_prompt
                data a Hok) as Hprompt.
  pose proof (apply_items_field id "id" eq_refl setattr_id data a Hok) as Hid.
  pose proof (apply_items_field created_at "created_at" eq_refl
                setattr_created_at data a Hok) as Hcreated.
  destruct (apply_items data a) as [a1 ok]. simpl in *. subst ok. simpl.
  eexists. split; [done |]. split; [apply get_set_eq |].
  rewrite setattr_name, setattr_role, setattr_prompt, setattr_id,
    setattr_created_at. simpl.
  rewrite Hname, Hrole, Hprompt, Hid, Hcreated.
  repeat split.
  - by intros ->.
  - apply keys_set_present. by rewrite H.
  - intros k Hk. apply get_set_ne. congruence.
Qed.

(** Items that name no field are not applied: the assistant only gets a
    new [modified_at]. *)
Lemma update_assistant_unknown_keys assistant_id data now m a :
  get_assistant assistant_id m = Some a ->
  Forall (fun kv => refuses_assignment kv.1 = false) data ->
  Forall (fun kv => hasattr kv.1 = false) data ->
  get_assistant assistant_id (update_assistant assistant_id data now m).2 =
    Some (mkAssistant (id a) (name a) (role a) (prompt a) (created_at a) now).
Proof.
  unfold get_assistant, AssistantStore.update_assistant.
  intros H Hr Hd. rewrite H, (apply_items_other _ _ Hr Hd). simpl.
  by rewrite get_set_eq.
Qed.

(** On an id that is not in the store nothing happens. *)
Lemma update_assistant_missing assistant_id data now m :
  get_assistant assistant_id m = None ->
  update_assistant assistant_id data now m = (false, m).
Proof.
  unfold get_assistant, AssistantStore.update_assistant. by intros ->.
Qed.

End Manager.

Lemma add_assistant_duplicate_witness :
  get_assistant (PyStr.replace_space (PyStr.ascii_lower "Code Expert"))
                sample_manager = Some sample_expert /\
  add_assistant PyStr.ascii_lower "t1" "t1" "Code Expert" "tester" "Test."
                sample_manager = (false, sample_manager).
Proof.
  split; [reflexivity |].
  apply (add_assistant_duplicate PyStr.ascii_lower "t1" "t1" "Code Expert"
           "tester" "Test." sample_manager sample_expert).
  reflexivity.
Defined.

Lemma update_assistant_fields_witness :
  let data := [("role", "auditor"); ("colour", "red")] in
  get_assistant "reviewer" sample_manager = Some sample_reviewer /\
  Forall (fun kv => sample_refuses kv.1 = false) data /\
  exists a',
    get_assistant "reviewer"
      (update_assistant sample_refuses "reviewer" data "t1" sample_manager).2
      = Some a' /\
    role a' = "auditor" /\ id a' = "reviewer" /\ modified_at a' = "t1".
Proof.
  intros data.
  assert (Forall (fun kv => sample_refuses kv.1 = false) data) as Hok
    by (repeat constructor).
  split; [reflexivity |]. split; [exact Hok |].
  destruct (update_assistant_fields sample_refuses "reviewer" data "t1"
              sample_manager sample_reviewer eq_refl Hok)
    as (a' & _ & Hget & _ & Hrole & _ & Hid & _ & Hmod & _).
  exists a'. repeat split; assumption.
Defined.

(** C7 as stated fails: an [id] item of [data] is applied, so the [id] of
    an assistant can change (and so can [created_at]). *)
Lemma update_assistant_id_not_immutable :
  ~ (forall assistant_id data now m a a',
       get_assistant assistant_id m = Some a ->
       get_assistant assistant_id
         (update_assistant sample_refuses assistant_id data now m).2
         = Some a' ->
       id a' = id a /\ created_at a' = created_at a).
Proof.
  intros H.
  destruct (H "reviewer" [("id", "architect"); ("created_at", "never")] "t1"
              sample_manager sample_reviewer
              (mkAssistant "architect" "Reviewer" "critic" "Review the code."
                           "never" "t1")
              eq_refl eq_refl) as [Hid _].
  discriminate Hid.
Qed.

End AssistantFacts.

(** ** The workflow store *)
Module WorkflowFacts.

Import WorkflowStore ListFacts DictFacts.

(** *** Reading the heap *)

Lemma deref_steps_frame s s' r :
  list_objs s' !! r = list_objs s !! r ->
  (forall q, q ∈ deref_list s r -> step_objs s' !! q = step_objs s !! q) ->
  deref_steps s' r = deref_steps s r.
Proof.
  unfold deref_steps, deref_list. intros -> H.
  induction (default [] (list_objs s !! r)) as [|q l IH]; [done |].
  rewrite !omap_cons_eq, H by left. rewrite IH; [done |].
  intros q' Hq'. apply H. by right.
Qed.

Section Manager.

Variable strftime_now : nat -> string.
Variable default_created_at default_modified_at : string.

Local Abbreviation new_step := (new_step strftime_now).
Local Abbreviation new_steps := (new_steps strftime_now).
Local Abbreviation load_entry := (load_entry strftime_now).
Local Abbreviation load_workflows := (load_workflows strftime_now).
Local Abbreviation init := (init strftime_now).
Local Abbreviation add_step := (add_step strftime_now).
Local Abbreviation save_current_workflow :=
  (save_current_workflow default_created_at default_modified_at).
Local Abbreviation reachable :=
  (reachable strftime_now default_created_at default_modified_at).

(** *** Allocation of steps *)

Lemma new_step_fields a p sid s :
  let r := new_step a p sid s in
  r.1 = length (step_objs s) /\
  (exists st, step_objs r.2 = step_objs s ++ [st] /\ kind st = (p, a)) /\
  list_objs r.2 = list_objs s /\
  workflows r.2 = workflows s /\
  current_workflow r.2 = current_workflow s /\
  workflow_file r.2 = workflow_file s.
Proof. simpl. repeat split. by eexists. Qed.

Lemma new_steps_fields ds s :
  let r := new_steps ds s in
  r.1 = seq (length (step_objs s)) (length ds) /\
  (exists cs, step_objs r.2 = step_objs s ++ cs /\
              map kind cs = map kind ds) /\
  list_objs r.2 = list_objs s /\
  workflows r.2 = workflows s /\
  current_workflow r.2 = current_workflow s /\
  workflow_file r.2 = workflow_file s.
Proof.
  revert s. induction ds as [|d ds IH]; intros s.
  - simpl. repeat split. exists []. by rewrite app_nil_r.
  - cbn [WorkflowStore.new_steps].
    destruct (new_step (assistants d) (is_parallel d) (step_id d) s)
      as [q s1] eqn:E1.
    pose proof (new_step_fields (assistants d) (is_parallel d) (step_id d) s)
      as (Hq & (st & Hst & Hk) & Hl & Hw & Hc & Hf).
    rewrite E1 in Hq, Hst, Hl, Hw, Hc, Hf. simpl in *.
    destruct (new_steps ds s1) as [qs s2] eqn:E2.
    specialize (IH s1). rewrite E2 in IH. simpl in IH.
    destruct IH as (Hqs & (cs & Hcs & Hks) & Hl2 & Hw2 & Hc2 & Hf2).
    simpl. repeat split; try congruence.
    + rewrite Hq, Hqs, Hst, length_app, Nat.add_1_r. done.
    + exists (st :: cs). split.
      * rewrite Hcs, Hst, <- (assoc_L (++)). done.
      * simpl. by rewrite Hk, Hks.
Qed.


(** *** Loading one entry of the file *)

Lemma load_entry_fields t d :
  let t' := load_entry t d in
  exists cs,
    step_objs t' = step_objs t ++ cs /\
    map kind cs = map kind (d_steps d) /\
    list_objs t' =
      list_objs t ++ [seq (length (step_objs t)) (length cs)] /\
    workflows t' =
      PyDict.set (d_name d)
        (mkWorkflow (d_name d) (length (list_objs t)) (d_description d)
                    (d_created_at d) (d_modified_at d))
        (workflows t) /\
    current_workflow t' = current_workflow t /\
    workflow_file t' = workflow_file t.
Proof.
  unfold WorkflowStore.load_entry.
  pose proof (new_steps_fields (d_steps d) t)
    as (Hq & (cs & Hcs & Hk) & Hl & Hw & Hc & Hf).
  destruct (new_steps (d_steps d) t) as [qs t1]. simpl in *.
  exists cs. rewrite Hl, Hw, Hc, Hf, Hq, Hcs.
  assert (length cs = length (d_steps d)) as ->.
  { by rewrite <- (length_map kind cs), Hk, length_map. }
  done.
Qed.

Lemma valid_lists_grow (so cs : list WorkflowStep) (lo : list (list ref))
    (l : list ref) :
  Forall (Forall (fun q => q < length so)) lo ->
  Forall (fun q => q < length (so ++ cs)) l ->
  Forall (Forall (fun q => q < length (so ++ cs))) (lo ++ [l]).
Proof.
  intros Hlo Hl. apply Forall_app. split; [| by apply Forall_singleton].
  eapply Forall_impl; [exact Hlo |]. intros x Hx.
  eapply Forall_impl; [exact Hx |]. intros q Hq.
  rewrite length_app. simpl in *. lia.
Qed.

Lemma load_entry_valid_lists t d :
  valid_lists t -> valid_lists (load_entry t d).
Proof.
  unfold valid_lists. intros Ht.
  destruct (load_entry_fields t d) as (cs & Hs & _ & Hl & _).
  rewrite Hs, Hl. apply valid_lists_grow; [done |].
  apply Forall_seq. intros j Hj. rewrite length_app. lia.
Qed.

Lemma load_entry_wf t d : wf_state t -> wf_state (load_entry t d).
Proof.
  intros (Hc & Hv & He & Hn).
  pose proof (load_entry_valid_lists t d Hv) as Hv'.
  destruct (load_entry_fields t d) as (cs & Hs & _ & Hl & Hw & Hcur & _).
  split; [| split; [done | split]].
  - rewrite Hcur, Hl, length_app. lia.
  - rewrite Hw. apply Forall_set.
    + eapply Forall_impl; [exact He |]. intros kw (? & ? & ?).
      unfold valid_entry. rewrite Hcur, Hl, length_app. repeat split; [done | lia | done].
    + unfold valid_entry. rewrite Hcur, Hl, length_app. simpl.
      repeat split; lia.
  - rewrite Hw. by apply NoDup_keys_set.
Qed.

Lemma fold_load_entry_wf ds t :
  wf_state t -> wf_state (fold_left load_entry ds t).
Proof.
  revert t. induction ds as [|d ds IH]; intros t Ht; [done |].
  simpl. apply IH. by apply load_entry_wf.
Qed.

Lemma init_wf file : wf_state (init file).
Proof.
  unfold WorkflowStore.init, WorkflowStore.load_workflows.
  assert (wf_state (mkState [] [[]] [] 0 file 0)) as H0.
  { repeat split; simpl; [lia | | constructor | constructor].
    unfold valid_lists. simpl. by repeat constructor. }
  simpl. destruct file as [data|]; [| exact H0].
  by apply fold_load_entry_wf.
Qed.


(** *** The methods keep the invariant *)

Lemma deref_list_valid s r :
  valid_lists s -> Forall (fun q => q < length (step_objs s)) (deref_list s r).
Proof.
  unfold valid_lists, deref_list. intros Hv.
  destruct (list_objs s !! r) as [l|] eqn:E; simpl; [| constructor].
  by eapply Forall_lookup_1.
Qed.

Lemma add_step_cases a p s :
  add_step a p s = (false, s) \/
  exists st,
    (add_step a p s).1 = true /\
    step_objs (add_step a p s).2 = step_objs s ++ [st] /\
    list_objs (add_step a p s).2 =
      alter (fun l => l ++ [length (step_objs s)]) (current_workflow s)
            (list_objs s) /\
    workflows (add_step a p s).2 = workflows s /\
    current_workflow (add_step a p s).2 = current_workflow s.
Proof.
  unfold WorkflowStore.add_step. destruct a as [|x a]; [by left |].
  destruct (filter _ (x :: a)) as [|y b]; [by left |].
  right. simpl. by eexists.
Qed.

Lemma add_step_wf a p s : wf_state s -> wf_state (add_step a p s).2.
Proof.
  intros Hs. destruct (add_step_cases a p s) as [->|(st & _ & Hso & Hlo & Hw & Hc)];
    [done |].
  destruct Hs as (Hcur & Hv & He & Hn).
  split; [| split; [| split]].
  - rewrite Hc, Hlo, length_alter. done.
  - unfold valid_lists. rewrite Hso, Hlo. apply Forall_alter.
    + eapply Forall_impl; [exact Hv |]. intros l Hl.
      eapply Forall_impl; [exact Hl |]. intros q Hq.
      rewrite length_app. simpl in *. lia.
    + intros l _ Hl. apply Forall_app. split; [done |].
      apply Forall_singleton. rewrite length_app. simpl. lia.
  - rewrite Hw. eapply Forall_impl; [exact He |]. intros kw (? & ? & ?).
    unfold valid_entry. rewrite Hc, Hlo, length_alter. done.
  - by rewrite Hw.
Qed.

Lemma alloc_wf l c s :
  wf_state s ->
  Forall (fun q => q < length (step_objs s)) l ->
  c < S (length (list_objs s)) ->
  Forall (fun kw => steps kw.2 <> c) (workflows s) ->
  wf_state (with_current_workflow c (alloc_list l s).2).
Proof.
  intros (Hcur & Hv & He & Hn) Hl Hc Hne.
  split; [| split; [| split]]; simpl.
  - rewrite length_app. simpl. lia.
  - unfold valid_lists. simpl. apply Forall_app. split; [done |].
    by apply Forall_singleton.
  - apply Forall_forall. intros kw Hkw.
    rewrite Forall_forall in He, Hne.
    destruct (He kw Hkw) as (? & ? & ?). specialize (Hne kw Hkw).
    unfold valid_entry. simpl. rewrite length_app. simpl.
    repeat split; [done | lia | done].
  - done.
Qed.

Lemma steps_below s :
  wf_state s ->
  Forall (fun kw => steps kw.2 <> length (list_objs s)) (workflows s).
Proof.
  intros (_ & _ & He & _). eapply Forall_impl; [exact He |].
  intros kw (_ & H & _). lia.
Qed.

Lemma clear_wf s : wf_state s -> wf_state (clear_current_workflow s).
Proof.
  intros Hs. unfold clear_current_workflow.
  apply (alloc_wf [] (length (list_objs s)) s Hs); [constructor | lia |].
  by apply steps_below.
Qed.

Lemma load_workflow_wf name s : wf_state s -> wf_state (load_workflow name s).2.
Proof.
  intros Hs. unfold load_workflow.
  destruct (PyDict.get name (workflows s)) as [w|]; [| done].
  apply (alloc_wf _ (length (list_objs s)) s Hs); [| lia | by apply steps_below].
  apply deref_list_valid. apply Hs.
Qed.

Lemma save_workflows_wf s : wf_state s -> wf_state (save_workflows s).2.
Proof. intros Hs. exact Hs. Qed.

Lemma save_current_workflow_wf name d s :
  wf_state s -> wf_state (save_current_workflow name d s).2.
Proof.
  intros Hs. unfold WorkflowStore.save_current_workflow.
  destruct (String.eqb name ""); [done |].
  destruct (deref_list s (current_workflow s)) as [|q l] eqn:E; [done |].
  pose proof (deref_list_valid s (current_workflow s) (proj1 (proj2 Hs))) as Hl.
  rewrite E in Hl.
  destruct Hs as (Hcur & Hv & He & Hn).
  split; [| split; [| split]]; simpl.
  - rewrite length_app. simpl. lia.
  - unfold valid_lists. simpl. apply Forall_app. split; [done |].
    by apply Forall_singleton.
  - apply Forall_set.
    + eapply Forall_impl; [exact He |]. intros kw (? & ? & ?).
      unfold valid_entry. simpl. rewrite length_app. simpl.
      repeat split; [done | lia | done].
    + unfold valid_entry. simpl. rewrite length_app. simpl.
      repeat split; lia.
  - by apply NoDup_keys_set.
Qed.

Lemma reachable_wf s : reachable s -> wf_state s.
Proof.
  induction 1.
  - apply init_wf.
  - by apply add_step_wf.
  - by apply save_current_workflow_wf.
  - by apply load_workflow_wf.
  - by apply clear_wf.
  - by apply save_workflows_wf.
Qed.

(** *** What the store holds is not changed through the draft *)

Lemma stored_steps_frame s s' name :
  wf_state s ->
  workflows s' = workflows s ->
  (forall r, r < length (list_objs s) -> r <> current_workflow s ->
             list_objs s' !! r = list_objs s !! r) ->
  (forall q, q < length (step_objs s) ->
             step_objs s' !! q = step_objs s !! q) ->
  stored_steps s' name = stored_steps s name.
Proof.
  intros (Hcur & Hv & He & Hn) Hw Hl Hq. unfold stored_steps. rewrite Hw.
  destruct (PyDict.get name (workflows s)) as [w|] eqn:E; [| done].
  apply get_Some_elem in E. rewrite Forall_forall in He.
  destruct (He _ E) as (_ & Hlt & Hne). simpl in *.
  f_equal. apply deref_steps_frame; [by apply Hl |].
  intros q Hin. apply Hq.
  pose proof (deref_list_valid s (steps w) Hv) as Hd.
  rewrite Forall_forall in Hd. by apply Hd.
Qed.

Lemma add_step_stored a p s name :
  wf_state s -> stored_steps (add_step a p s).2 name = stored_steps s name.
Proof.
  intros Hs.
  destruct (add_step_cases a p s) as [->|(st & _ & Hso & Hlo & Hw & Hc)];
    [done |].
  apply stored_steps_frame; [done | done | |].
  - intros r _ Hr. rewrite Hlo. by apply list_lookup_alter_ne.
  - intros q Hq. rewrite Hso. by apply lookup_app_l.
Qed.

Lemma clear_stored s name :
  wf_state s -> stored_steps (clear_current_workflow s) name = stored_steps s name.
Proof.
  intros Hs. apply stored_steps_frame; [done | done | | done].
  intros r Hr _. simpl. by apply lookup_app_l.
Qed.

Lemma load_workflow_stored n s name :
  wf_state s -> stored_steps (load_workflow n s).2 name = stored_steps s name.
Proof.
  intros Hs. unfold load_workflow.
  destruct (PyDict.get n (workflows s)) as [w|]; [| done].
  apply stored_steps_frame; [done | done | | done].
  intros r Hr _. simpl. by apply lookup_app_l.
Qed.


Lemma run_ops_stored ops s name :
  wf_state s ->
  Forall (fun o => method_op o = true) ops ->
  stored_steps (fold_left (run_op strftime_now) ops s) name =
    stored_steps s name.
Proof.
  revert s. induction ops as [|o ops IH]; intros s Hs Hops; [done |].
  inversion Hops as [|? ? Ho Hr]; subst. simpl.
  destruct o as [a p| |i f]; simpl in *; [| | done].
  - rewrite IH; [by apply add_step_stored | by apply add_step_wf | done].
  - rewrite IH; [by apply clear_stored | by apply clear_wf | done].
Qed.

(** C5, as the code has it: after [load_workflow(name)] the draft is a new
    list that holds the steps of the stored workflow, and whatever the
    manager's methods then do to the draft, appending steps or clearing it,
    the stored workflow reads as before. *)
Theorem load_workflow_copies_list name s ops :
  reachable s ->
  (load_workflow name s).1 = true ->
  Forall (fun o => method_op o = true) ops ->
  let s1 := (load_workflow name s).2 in
  current_workflow s1 <> current_workflow s /\
  Some (deref_steps s1 (current_workflow s1)) = stored_steps s name /\
  stored_steps (fold_left (run_op strftime_now) ops s1) name =
    stored_steps s name.
Proof.
  intros Hr Hok Hops s1. pose proof (reachable_wf s Hr) as Hs.
  split; [| split].
  - subst s1. unfold load_workflow in *.
    destruct (PyDict.get name (workflows s)); [| done]. simpl.
    destruct Hs as (Hcur & _). lia.
  - subst s1. unfold load_workflow, stored_steps in *.
    destruct (PyDict.get name (workflows s)) as [w|]; [| done]. simpl.
    f_equal. unfold deref_steps, deref_list. simpl.
    rewrite lookup_app_r, Nat.sub_diag by lia. done.
  - rewrite run_ops_stored; [| by apply load_workflow_wf | done].
    by apply load_workflow_stored.
Qed.

(** *** Saving and loading back *)

Lemma fold_load_entry_loaded ds t :
  NoDup (map d_name ds) ->
  valid_lists t ->
  workflows t = [] ->
  let t' := fold_left load_entry ds t in
  valid_lists t' /\
  PyDict.keys (workflows t') = map d_name ds /\
  Forall (fun d => exists w,
            PyDict.get (d_name d) (workflows t') = Some w /\
            steps w < length (list_objs t') /\
            map kind (deref_steps t' (steps w)) = map kind (d_steps d)) ds.
Proof.
  intros Hnd Ht Hw. induction ds as [|d ds IH] using rev_ind.
  - simpl. rewrite Hw. by repeat split.
  - rewrite map_app in Hnd. apply NoDup_app in Hnd.
    destruct Hnd as (Hnd & Hfresh & _).
    destruct (IH Hnd) as (Hv & Hk & Hall). clear IH.
    rewrite fold_left_app. simpl.
    set (u := fold_left load_entry ds t) in *.
    destruct (load_entry_fields u d) as (cs & Hso & Hkind & Hlo & Hws & _).
    assert (PyDict.get (d_name d) (workflows u) = None) as Hnone.
    { destruct (PyDict.get (d_name d) (workflows u)) eqn:E; [| done].
      exfalso. assert (d_name d ∈ PyDict.keys (workflows u)) as Hin.
      { apply get_elem_of_keys. by rewrite E. }
      rewrite Hk in Hin. apply (Hfresh _ Hin). simpl. left. }
    rewrite (set_absent _ _ _ Hnone) in Hws.
    split; [by apply load_entry_valid_lists |]. split.
    + rewrite Hws. unfold PyDict.keys in *. rewrite !map_app, Hk. done.
    + apply Forall_app. split.
      * eapply Forall_impl; [exact Hall |]. intros d0 (w & Hg & Hlt & Hd).
        exists w. rewrite Hws, Hlo, length_app. split; [| split; [lia |]].
        -- rewrite get_app_present; [done | by rewrite Hg].
        -- rewrite <- Hd. f_equal. apply deref_steps_frame.
           ++ rewrite Hlo. by apply lookup_app_l.
           ++ intros q Hq. rewrite Hso. apply lookup_app_l.
              pose proof (deref_list_valid u (steps w) Hv) as Hf.
              rewrite Forall_forall in Hf. by apply Hf.
      * apply Forall_singleton. eexists. rewrite Hws, Hlo, length_app.
        split; [| split].
        -- rewrite (get_app_absent _ _ _ Hnone). simpl.
           by rewrite String.eqb_refl.
        -- simpl. lia.
        -- rewrite <- Hkind. f_equal. unfold deref_steps, deref_list.
           simpl. rewrite Hlo, Hso, lookup_app_r, Nat.sub_diag by lia.
           simpl. pose proof (omap_lookup_seq (step_objs u) cs []) as Ho.
           by rewrite app_nil_r in Ho.
Qed.

Lemma map_kind_eq (l l' : list WorkflowStep) :
  map kind l' = map kind l ->
  length l' = length l /\
  map is_parallel l' = map is_parallel l /\
  map assistants l' = map assistants l.
Proof.
  intros H. split; [| split].
  - by rewrite <- (length_map kind l'), H, length_map.
  - apply (f_equal (map fst)) in H. by rewrite !map_map in H.
  - apply (f_equal (map snd)) in H. by rewrite !map_map in H.
Qed.

(** C8: the store written by [save_workflows] and read back by
    [load_workflows] into a new manager has the same workflow names, and
    under each name as many steps, with the same parallel flag and the same
    list of assistant ids at each position. *)
Theorem save_load_roundtrip s :
  reachable s ->
  let s' := init (workflow_file (save_workflows s).2) in
  PyDict.keys (workflows s') = PyDict.keys (workflows s) /\
  forall name,
    length <$> stored_steps s' name = length <$> stored_steps s name /\
    map is_parallel <$> stored_steps s' name =
      map is_parallel <$> stored_steps s name /\
    map assistants <$> stored_steps s' name =
      map assistants <$> stored_steps s name.
Proof.
  intros Hr. pose proof (reachable_wf s Hr) as (_ & _ & He & Hn).
  unfold WorkflowStore.init, WorkflowStore.load_workflows. simpl.
  set (ds := PyDict.values
               (map (fun kw => (kw.1, to_dict s kw.2)) (workflows s))).
  assert (map d_name ds = PyDict.keys (workflows s)) as Hnames.
  { subst ds. unfold PyDict.values, PyDict.keys. rewrite !map_map. simpl.
    apply map_ext_Forall. eapply Forall_impl; [exact He |].
    by intros kw (? & _). }
  match goal with |- context [fold_left _ ds ?t0] => set (s0 := t0) end.
  destruct (fold_load_entry_loaded ds s0) as (_ & Hk & Hall).
  { by rewrite Hnames. }
  { unfold valid_lists. simpl. by repeat constructor. }
  { done. }
  split; [by rewrite Hk |].
  intros name.
  assert (map kind <$> stored_steps (fold_left load_entry ds s0) name =
          map kind <$> stored_steps s name) as Hkind.
  { unfold stored_steps.
    destruct (PyDict.get name (workflows s)) as [w|] eqn:E.
    - pose proof (get_Some_elem _ _ _ E) as Hin.
      rewrite Forall_forall in He. destruct (He _ Hin) as (Hname & _).
      simpl in Hname.
      rewrite Forall_forall in Hall.
      destruct (Hall (to_dict s w)) as (w' & Hg & _ & Hd).
      { subst ds. unfold PyDict.values. rewrite map_map. simpl.
        apply list_elem_of_In, in_map_iff. exists (name, w).
        split; [done | by apply list_elem_of_In]. }
      simpl in Hg. rewrite Hname in Hg. rewrite Hg. simpl. by rewrite Hd.
    - destruct (PyDict.get name (workflows (fold_left load_entry ds s0)))
        as [w'|] eqn:E'; [| done].
      exfalso.
      assert (name ∈ PyDict.keys (workflows s)) as Hin.
      { rewrite <- Hnames, <- Hk. apply get_elem_of_keys. by rewrite E'. }
      apply get_elem_of_keys in Hin. rewrite E in Hin. by destruct Hin. }
  destruct (stored_steps (fold_left load_entry ds s0) name) as [l'|],
           (stored_steps s name) as [l|]; simpl in *; try done.
  injection Hkind as Hkind.
  destruct (map_kind_eq _ _ Hkind) as (-> & -> & ->). done.
Qed.

End Manager.

(** C5 as stated fails for a step of the draft: the draft and the stored
    workflow hold the same step objects, so an assignment to a step reached
    through the draft shows in the stored workflow. *)
Lemma draft_step_is_shared :
  let s1 := (load_workflow "W" sample_state).2 in
  let o := OpAssign 0 (fun st => mkStep (assistants st) true (step_id st)) in
  (load_workflow "W" sample_state).1 = true /\
  stored_steps sample_state "W" = Some [mkStep ["reviewer"] false "s1"] /\
  stored_steps (run_op sample_clock s1 o) "W" =
    Some [mkStep ["reviewer"] true "s1"] /\
  stored_steps (run_op sample_clock s1 o) "W" <> stored_steps sample_state "W".
Proof. vm_compute. repeat split; try done. Qed.

Lemma load_workflow_copies_list_witness :
  let ops := [OpAddStep ["architect"; "reviewer"] true; OpClear] in
  reachable sample_clock "t0" "t0" sample_state /\
  (load_workflow "W" sample_state).1 = true /\
  Forall (fun o => method_op o = true) ops /\
  stored_steps
    (fold_left (run_op sample_clock) ops (load_workflow "W" sample_state).2)
    "W" = stored_steps sample_state "W".
Proof.
  assert (reachable sample_clock "t0" "t0" sample_state) as Hr
    by apply reach_init.
  assert (Forall (fun o => method_op o = true)
            [OpAddStep ["architect"; "reviewer"] true; OpClear]) as Hops
    by (repeat constructor).
  intros ops. split; [exact Hr |]. split; [reflexivity |].
  split; [exact Hops |].
  apply (load_workflow_copies_list sample_clock "t0" "t0" "W" sample_state
           _ Hr eq_refl Hops).
Defined.

Lemma save_load_roundtrip_witness :
  let s := (save_current_workflow "t0" "t0" "V" "two steps"
              (add_step sample_clock ["architect"; ""; "reviewer"] true
                 (load_workflow "W" sample_state).2).2).2 in
  reachable sample_clock "t0" "t0" s /\
  PyDict.keys (workflows (init sample_clock (workflow_file (save_workflows s).2)))
    = PyDict.keys (workflows s).
Proof.
  intros s.
  assert (reachable sample_clock "t0" "t0" s) as Hr.
  { apply reach_save_current, reach_add_step, reach_load, reach_init. }
  split; [exact Hr |].
  apply (save_load_roundtrip sample_clock "t0" "t0" s Hr).
Defined.

End WorkflowFacts.

(** ** The execution engine *)
Module EngineFacts.

Import WorkflowStore Engine ListFacts.

(** *** Joins over results that may be [None] *)

Lemma first_none_texts rs : first_none (map Some rs) = None.
Proof. induction rs as [|r rs IH]; [done |]. simpl. by rewrite IH. Qed.

Lemma omap_texts (rs : list string) : omap (fun x => x) (map Some rs) = rs.
Proof.
  induction rs as [|r rs IH]; [done |].
  cbn [map]. rewrite omap_cons_eq. by rewrite IH.
Qed.

Lemma str_join_texts sep rs :
  str_join sep (map Some rs) = Return (PyStr.join sep rs).
Proof. unfold str_join. by rewrite first_none_texts, omap_texts. Qed.

Lemma first_none_cases items :
  (exists rs, items = map Some rs /\ first_none items = None) \/
  (exists i, i < length items /\ items !! i = Some None /\
             first_none items = Some i).
Proof.
  induction items as [|[x|] items IH].
  - left. by exists [].
  - destruct IH as [(rs & -> & H)|(i & Hi & Hl & H)].
    + left. exists (x :: rs). simpl. by rewrite H.
    + right. exists (S i). simpl. rewrite H. split; [lia | done].
  - right. exists 0. simpl. split; [lia | done].
Qed.

(** [str.join] returns the join of the texts when every item is one, and
    raises at the first item that is [None] otherwise. *)
Lemma str_join_cases sep items :
  (exists rs,
     items = map Some rs /\ str_join sep items = Return (PyStr.join sep rs)) \/
  (exists i,
     i < length items /\ items !! i = Some None /\
     str_join sep items = Raise (TypeError (not_a_str i))).
Proof.
  destruct (first_none_cases items) as [(rs & -> & H)|(i & Hi & Hl & H)].
  - left. exists rs. split; [done | apply str_join_texts].
  - right. exists i. unfold str_join. by rewrite H.
Qed.

(** *** Calls and the texts they gave *)

Lemma answers_cons req resp new :
  answers ((req, resp) :: new) =
  match text_of resp with
  | Some text => text :: answers new
  | None => answers new
  end.
Proof. done. Qed.

Lemma answers_app new1 new2 :
  answers (new1 ++ new2) = answers new1 ++ answers new2.
Proof. unfold answers. apply omap_app. Qed.

Lemma answers_contents (new : list (Request * Response)) rs :
  map snd new = map Content rs -> answers new = rs.
Proof.
  revert rs. induction new as [|[req resp] new IH]; intros [|r rs] H;
    try done.
  simpl in H. injection H as -> H. rewrite answers_cons. simpl.
  f_equal. by apply IH.
Qed.

Lemma texts_answers (new : list (Request * Response)) rs :
  map (fun c => text_of c.2) new = map Some rs ->
  Forall (fun c => no_text c = false) new /\ answers new = rs.
Proof.
  revert rs. induction new as [|[req resp] new IH]; intros [|r rs] H;
    try done.
  simpl in H. injection H as Hr H. destruct (IH _ H) as [Hn <-].
  destruct resp as [text| |cause]; simpl in Hr; try done.
  injection Hr as ->. split; [by constructor | done].
Qed.

Lemma texts_contents (new : list (Request * Response)) rs :
  map (fun c => text_of c.2) new = map Some rs ->
  map snd new = map Content rs.
Proof.
  revert rs. induction new as [|[req resp] new IH]; intros [|r rs] H;
    try done.
  simpl in H. injection H as Hr H. simpl.
  destruct resp; simpl in Hr; try done. injection Hr as ->.
  f_equal. by apply IH.
Qed.

Lemma none_no_text (new : list (Request * Response)) i :
  map (fun c => text_of c.2) new !! i = Some None ->
  Forall (fun c => failed c = false) new ->
  Exists (fun c => no_text c = true) new.
Proof.
  revert i. induction new as [|[req resp] new IH]; intros i H Hf; [done |].
  apply Forall_cons in Hf as [Hf1 Hf].
  destruct i as [|i]; simpl in H.
  - destruct resp; try done. by left.
  - right. by eapply IH.
Qed.

Lemma caused_by_failed e new :
  caused_by e new -> Exists (fun c => failed c = true) new.
Proof.
  intros (req & cause & Hin & _). apply Exists_exists.
  by exists (req, Failure cause).
Qed.

Lemma no_failure (new : list (Request * Response)) :
  Forall (fun c => failed c = false) new ->
  ~ Exists (fun c => failed c = true) new.
Proof.
  intros Hok Hex. apply Exists_exists in Hex. destruct Hex as (c & Hin & Hf).
  rewrite Forall_forall in Hok. specialize (Hok c Hin). congruence.
Qed.

Lemma all_texts (new : list (Request * Response)) :
  Forall (fun c => failed c = false) new ->
  Forall (fun c => no_text c = false) new ->
  ~ Exists (fun c => failed c || no_text c = true) new.
Proof.
  intros Hf Hn Hex. apply Exists_exists in Hex. destruct Hex as (c & Hin & H).
  rewrite Forall_forall in Hf, Hn.
  rewrite (Hf c Hin), (Hn c Hin) in H. done.
Qed.

Section Service.

Context {W : Type}.
Variable create : Request -> W -> Response * W.
Variable race : W -> nat.
Variable default_timestamp : string.

Local Abbreviation get_assistant_response := (get_assistant_response create).
Local Abbreviation run_tasks := (run_tasks create).
Local Abbreviation gather := (gather race).
Local Abbreviation run_sequential := (run_sequential create).
Local Abbreviation run_step := (run_step create race).
Local Abbreviation run_steps := (run_steps create race).
Local Abbreviation process_message :=
  (process_message create race default_timestamp).
Local Abbreviation completes := (completes create).
Local Abbreviation spec_parallel := (spec_parallel create).
Local Abbreviation spec_sequential := (spec_sequential create).
Local Abbreviation spec_steps := (spec_steps create).
Local Abbreviation spec_run := (spec_run create default_timestamp).

(** *** One call *)

Lemma get_assistant_response_eq message id model n :
  get_assistant_response message id model n =
  (outcome (create (request message id model) (world n)).1,
   mkNet (create (request message id model) (world n)).2
         (calls n ++ [(request message id model,
                       (create (request message id model) (world n)).1)])).
Proof.
  unfold Engine.get_assistant_response.
  by destruct (create (request message id model) (world n)).
Qed.

Lemma outcome_text r : is_failure r = false -> outcome r = Return (text_of r).
Proof. by destruct r. Qed.

Lemma outcome_raise r e :
  outcome r = Raise e ->
  exists cause, r = Failure cause /\ e = APIError (response_failed +:+ cause).
Proof. destruct r; simpl; try done. intros [= <-]. by eexists. Qed.

Lemma completes_response id current model n r w' :
  completes id current model (world n) r w' ->
  get_assistant_response (Some current) id model n =
  (Return (Some r),
   mkNet w' (calls n ++ [(request (Some current) id model, Content r)])).
Proof.
  unfold Engine.completes. intros H.
  rewrite get_assistant_response_eq, H. done.
Qed.

Lemma system_context_request message id model :
  system_context (request message id model) = "You are " +:+ id.
Proof. done. Qed.

(** *** A sequential step *)

Lemma run_sequential_log model ids :
  forall current results n,
  exists new,
    calls (run_sequential ids current results model n).2 = calls n ++ new /\
    Forall (issued model ids) new /\
    match (run_sequential ids current results model n).1 with
    | Return (last, results') =>
        results' = results ++ map (fun c => text_of c.2) new /\
        Forall (fun c => failed c = false) new /\
        map (fun c => system_context c.1) new =
          map (fun id => "You are " +:+ id) ids /\
        (forall cur, current = Some cur ->
           Forall (fun c => no_text c = false) new ->
           exists last', last = Some last' /\
             spec_sequential model ids cur (world n) (answers new) last'
               (world (run_sequential ids current results model n).2))
    | Raise e =>
        exists pre req cause,
          new = pre ++ [(req, Failure cause)] /\
          Forall (fun c => failed c = false) pre /\
          e = APIError (response_failed +:+ cause)
    end.
Proof.
  induction ids as [|id ids IH]; intros current results n.
  - exists []. simpl. rewrite !app_nil_r.
    split; [done |]. split; [constructor |]. split; [done |].
    split; [constructor |]. split; [done |].
    intros cur -> _. exists cur. split; [done | constructor].
  - cbn [Engine.run_sequential]. rewrite get_assistant_response_eq.
    destruct (create (request current id model) (world n)) as [resp w'] eqn:E.
    cbn [fst snd]. destruct (is_failure resp) eqn:Hfail.
    + destruct resp as [text| |cause]; try done. simpl.
      exists [(request current id model, Failure cause)].
      split; [done |]. split.
      * repeat constructor. exists id, current. split; [left | done].
      * exists [], (request current id model), cause.
        split; [done |]. split; [constructor | done].
    + rewrite (outcome_text _ Hfail).
      set (n1 := mkNet w' _).
      destruct (IH (text_of resp) (results ++ [text_of resp]) n1)
        as (new & Hc & Hi & Hm).
      exists ((request current id model, resp) :: new).
      split; [| split].
      * rewrite Hc. subst n1. simpl. by rewrite <- (assoc_L (++)).
      * constructor.
        -- exists id, current. split; [left | done].
        -- eapply Forall_impl; [exact Hi |].
           intros c (i & m & Hin & Hreq). exists i, m. split; [by right | done].
      * destruct (run_sequential ids (text_of resp)
                    (results ++ [text_of resp]) model n1)
          as [[[last results']|e] n2]; cbn [fst snd] in *.
        -- destruct Hm as (Hr & Hok & Hsys & Hspec).
           split; [| split; [| split]].
           ++ rewrite Hr, <- (assoc_L (++)). done.
           ++ by constructor.
           ++ cbn [map]. by rewrite Hsys.
           ++ intros cur -> Hn. apply Forall_cons in Hn as [Hn1 Hn].
              destruct resp as [text| |cause]; try done.
              destruct (Hspec text eq_refl Hn) as (last' & -> & Hs).
              exists last'. split; [done |]. rewrite answers_cons. simpl.
              econstructor; [exact E | exact Hs].
        -- destruct Hm as (pre & req & cause & -> & Hok & ->).
           exists ((request current id model, resp) :: pre), req, cause.
           split; [done |]. split; [by constructor | done].
Qed.

Lemma spec_sequential_run model ids current w rs last w' :
  spec_sequential model ids current w rs last w' ->
  forall results n, world n = w ->
  exists n',
    run_sequential ids (Some current) results model n =
      (Return (Some last, results ++ map Some rs), n') /\
    world n' = w'.
Proof.
  induction 1 as [current w|id ids current w r w1 rs last w2 Hc _ IH];
    intros results n Hn.
  - eexists. simpl. rewrite app_nil_r. done.
  - subst w. cbn [Engine.run_sequential].
    rewrite (completes_response _ _ _ _ _ _ Hc).
    destruct (IH (results ++ [Some r])
                (mkNet w1 (calls n ++
                   [(request (Some current) id model, Content r)])) eq_refl)
      as (n' & Hrun & Hw).
    exists n'. rewrite Hrun, <- (assoc_L (++)). done.
Qed.

(** *** A parallel step *)

Lemma run_tasks_log current model ids :
  forall n,
  exists new,
    calls (run_tasks current model ids n).2 = calls n ++ new /\
    map fst new = map (fun id => request current id model) ids /\
    (run_tasks current model ids n).1 = map (fun c => outcome c.2) new /\
    forall cur, current = Some cur ->
      map snd new = map Content (answers new) ->
      spec_parallel cur model ids (world n) (answers new)
        (world (run_tasks current model ids n).2).
Proof.
  induction ids as [|id ids IH]; intros n.
  - exists []. simpl. rewrite app_nil_r. repeat split.
    intros cur _ _. constructor.
  - cbn [Engine.run_tasks]. rewrite get_assistant_response_eq.
    destruct (create (request current id model) (world n)) as [resp w'] eqn:E.
    cbn [fst snd]. set (n1 := mkNet w' _).
    destruct (IH n1) as (new & Hc & Hf & Ho & Hs).
    destruct (run_tasks current model ids n1) as [os n2]. cbn [fst snd] in *.
    exists ((request current id model, resp) :: new).
    split; [| split; [| split]].
    + rewrite Hc. subst n1. simpl. by rewrite <- (assoc_L (++)).
    + simpl. by rewrite Hf.
    + simpl. by rewrite Ho.
    + intros cur -> Hsnd. rewrite answers_cons in *.
      destruct resp as [text| |cause]; simpl in Hsnd.
      * injection Hsnd as Hsnd. simpl.
        econstructor; [exact E | by apply Hs].
      * exfalso. destruct (answers new); discriminate Hsnd.
      * exfalso. destruct (answers new); discriminate Hsnd.
Qed.

Lemma spec_parallel_run current model ids w rs w' :
  spec_parallel current model ids w rs w' ->
  forall n, world n = w ->
  exists n',
    run_tasks (Some current) model ids n = (map Return (map Some rs), n') /\
    world n' = w'.
Proof.
  induction 1 as [w|id ids w r w1 rs w2 Hc _ IH]; intros n Hn.
  - by eexists.
  - subst w. cbn [Engine.run_tasks].
    rewrite (completes_response _ _ _ _ _ _ Hc).
    destruct (IH (mkNet w1 (calls n ++
                    [(request (Some current) id model, Content r)])) eq_refl)
      as (n' & Hrun & Hw).
    exists n'. by rewrite Hrun.
Qed.

Lemma gather_cases outs n :
  (omap raised outs = [] /\ gather outs n = Return (omap returned outs)) \/
  (exists e, e ∈ omap raised outs /\ gather outs n = Raise e).
Proof.
  unfold Engine.gather. destruct (omap raised outs) as [|e fs] eqn:E.
  - by left.
  - right. set (k := race (world n) mod length (e :: fs)).
    assert (k < length (e :: fs)) as Hk.
    { apply Nat.mod_upper_bound. simpl. lia. }
    apply lookup_lt_is_Some_2 in Hk. destruct Hk as [x Hx].
    exists x. rewrite Hx. simpl. split; [| done].
    by eapply list_elem_of_lookup_2.
Qed.

Lemma gather_returns (items : list (option string)) n :
  gather (map Return items) n = Return items.
Proof.
  unfold Engine.gather.
  assert (omap raised (map (@Return (option string)) items) = []) as ->.
  { induction items; [done | by simpl]. }
  f_equal. induction items as [|r items IH]; [done |].
  cbn [map]. rewrite omap_cons_eq. cbn [returned].
  by rewrite IH.
Qed.

Lemma no_failure_contents (new : list (Request * Response)) :
  omap raised (map (fun c => outcome c.2) new) = [] ->
  Forall (fun c => failed c = false) new /\
  omap returned (map (fun c => outcome c.2) new) =
    map (fun c => text_of c.2) new.
Proof.
  induction new as [|[req resp] new IH]; [done |].
  cbn [map snd]. rewrite !omap_cons_eq.
  destruct resp as [text| |cause]; cbn [outcome raised returned];
    [| | done];
    intros H; destruct (IH H) as [Hok Hs];
    (split; [by constructor | by rewrite Hs]).
Qed.

Lemma raised_caused_by e (new : list (Request * Response)) :
  e ∈ omap raised (map (fun c => outcome c.2) new) -> caused_by e new.
Proof.
  intros He. apply list_elem_of_omap in He. destruct He as (o & Ho & Hr).
  apply list_elem_of_In, in_map_iff in Ho.
  destruct Ho as ([req resp] & <- & Hin). simpl in Hr.
  destruct resp as [text| |cause]; simpl in Hr; try done.
  injection Hr as <-. exists req, cause. split; [| done].
  by apply list_elem_of_In.
Qed.

(** *** One step, then all of them *)

Lemma run_step_log model step workflow :
  step ∈ workflow ->
  forall current results n,
  exists new,
    calls (run_step step current results model n).2 = calls n ++ new /\
    Forall (issued model (assistants step)) new /\
    (is_parallel step = true ->
     map fst new = map (fun id => request current id model) (assistants step)) /\
    match (run_step step current results model n).1 with
    | Return (next, results') =>
        results' = results ++ map (fun c => text_of c.2) new /\
        Forall (fun c => failed c = false) new /\
        map (fun c => system_context c.1) new =
          map (fun id => "You are " +:+ id) (assistants step) /\
        (forall cur, current = Some cur ->
           Forall (fun c => no_text c = false) new ->
           exists next', next = Some next' /\
             forall rest w2 steps,
               spec_steps model steps next'
                 (world (run_step step current results model n).2) rest w2 ->
               spec_steps model (step :: steps) cur (world n)
                 (answers new ++ rest) w2)
    | Raise e =>
        (caused_by e new /\ stops_at_failure model workflow new) \/
        (Forall (fun c => failed c = false) new /\
         Exists (fun c => no_text c = true) new /\
         exists i, i < length new /\ e = TypeError (not_a_str i))
    end.
Proof.
  intros Hin current results n. unfold Engine.run_step.
  destruct (is_parallel step) eqn:Hp.
  - destruct (run_tasks_log current model (assistants step) n)
      as (new & Hc & Hf & Ho & Hs).
    destruct (run_tasks current model (assistants step) n) as [outs n1].
    cbn [fst snd] in *. exists new.
    assert (Forall (issued model (assistants step)) new) as Hi.
    { clear -Hf. revert new Hf.
      induction (assistants step) as [|id ids IH]; intros [|c new] Hf;
        try done.
      simpl in Hf. injection Hf as Hc Hf. constructor.
      - exists id, current. split; [left | done].
      - eapply Forall_impl; [by apply IH |].
        intros c' (i & m & Hi & Hr). exists i, m. split; [by right | done]. }
    assert (map (fun c => system_context c.1) new =
            map (fun id => "You are " +:+ id) (assistants step)) as Hsys.
    { assert (map (fun c => system_context c.1) new =
              map system_context (map fst new)) as ->
        by (by rewrite map_map).
      rewrite Hf, map_map. done. }
    destruct (gather_cases outs n1) as [[Hnone ->]|(e & He & ->)].
    + subst outs. destruct (no_failure_contents new Hnone) as [Hok Hret].
      rewrite Hret.
      destruct (str_join_cases PyStr.nl (map (fun c => text_of c.2) new))
        as [(rs & Hrs & ->)|(i & Hlt & Hnone' & ->)]; cbn [fst snd].
      * destruct (texts_answers new rs Hrs) as [Hn <-].
        split; [done |]. split; [done |]. split; [done |].
        split; [done |]. split; [done |]. split; [done |].
        intros cur -> _. eexists. split; [done |].
        intros rest w2 steps Hrest.
        eapply spec_steps_parallel; [done | | exact Hrest].
        apply Hs; [done | by apply texts_contents].
      * split; [done |]. split; [done |]. split; [done |]. right.
        split; [done |]. split; [by eapply none_no_text |].
        exists i. split; [by rewrite length_map in Hlt | done].
    + cbn [fst snd]. split; [done |]. split; [done |]. split; [done |].
      subst outs. left.
      pose proof (raised_caused_by e new He) as Hcb. split; [done |].
      exists [], new. split; [done |]. split; [constructor |].
      split; [by eapply caused_by_failed |].
      right. by exists step, current.
  - destruct (run_sequential_log model (assistants step) current results n)
      as (new & Hc & Hi & Hm).
    exists new. split; [done |]. split; [done |]. split; [done |].
    destruct (run_sequential (assistants step) current results model n)
      as [[[last results']|e] n1]; cbn [fst snd] in *.
    + destruct Hm as (Hr & Hok & Hsys & Hspec).
      split; [done |]. split; [done |]. split; [done |].
      intros cur Hcur Hn. destruct (Hspec cur Hcur Hn) as (last' & -> & Hs).
      exists last'. split; [done |]. intros rest w2 steps Hrest.
      eapply spec_steps_sequential; [done | exact Hs | done].
    + destruct Hm as (pre & req & cause & -> & Hok & ->). left. split.
      * exists req, cause. split; [| done].
        apply elem_of_app. right. left.
      * exists pre, [(req, Failure cause)].
        split; [done |]. split; [done |]. split; [by left |].
        left. by eexists.
Qed.

Lemma issued_app_l model ids1 ids2 c :
  issued model ids1 c -> issued model (ids1 ++ ids2) c.
Proof.
  intros (i & m & Hi & Hr). exists i, m. split; [| done].
  apply elem_of_app. by left.
Qed.

Lemma issued_app_r model ids1 ids2 c :
  issued model ids2 c -> issued model (ids1 ++ ids2) c.
Proof.
  intros (i & m & Hi & Hr). exists i, m. split; [| done].
  apply elem_of_app. by right.
Qed.

Lemma run_steps_log model workflow steps :
  (forall st, st ∈ steps -> st ∈ workflow) ->
  forall current results n,
  exists new,
    calls (run_steps steps current results model n).2 = calls n ++ new /\
    Forall (issued model (all_ids steps)) new /\
    match (run_steps steps current results model n).1 with
    | Return (last, results') =>
        results' = results ++ map (fun c => text_of c.2) new /\
        Forall (fun c => failed c = false) new /\
        map (fun c => system_context c.1) new =
          map (fun id => "You are " +:+ id) (all_ids steps) /\
        (forall cur, current = Some cur ->
           Forall (fun c => no_text c = false) new ->
           spec_steps model steps cur (world n) (answers new)
             (world (run_steps steps current results model n).2))
    | Raise e =>
        (caused_by e new /\ stops_at_failure model workflow new) \/
        (Forall (fun c => failed c = false) new /\
         Exists (fun c => no_text c = true) new /\
         exists i, i < length new /\ e = TypeError (not_a_str i))
    end.
Proof.
  induction steps as [|step steps IH]; intros Hsub current results n.
  - exists []. simpl. rewrite !app_nil_r.
    split; [done |]. split; [constructor |]. split; [done |].
    split; [constructor |]. split; [done |]. intros cur _ _. constructor.
  - cbn [Engine.run_steps].
    assert (step ∈ workflow) as Hin by (apply Hsub; left).
    destruct (run_step_log model step workflow Hin current results n)
      as (new1 & Hc1 & Hi1 & _ & Hm1).
    unfold all_ids. cbn [map concat]. fold (all_ids steps).
    destruct (run_step step current results model n)
      as [[[next results1]|e] n1]; cbn [fst snd] in Hc1, Hm1.
    + destruct Hm1 as (-> & Hok1 & Hsys1 & Hs1).
      destruct (IH (fun st H => Hsub st (list_elem_of_further _ _ _ H))
                  next (results ++ map (fun c => text_of c.2) new1) n1)
        as (new2 & Hc2 & Hi2 & Hm2).
      exists (new1 ++ new2). split; [| split].
      * rewrite Hc2, Hc1, <- (assoc_L (++)). done.
      * apply Forall_app. split.
        -- eapply Forall_impl; [exact Hi1 |]. intros c. apply issued_app_l.
        -- eapply Forall_impl; [exact Hi2 |]. intros c. apply issued_app_r.
      * destruct (run_steps steps next
                    (results ++ map (fun c => text_of c.2) new1) model n1)
          as [[[last results2]|e] n2]; cbn [fst snd] in *.
        -- destruct Hm2 as (-> & Hok2 & Hsys2 & Hs2).
           split; [| split; [| split]].
           ++ by rewrite map_app, <- (assoc_L (++)).
           ++ by apply Forall_app.
           ++ by rewrite !map_app, Hsys1, Hsys2.
           ++ intros cur Hcur Hn. apply Forall_app in Hn as [Hn1 Hn2].
              destruct (Hs1 cur Hcur Hn1) as (next' & -> & Hk).
              rewrite answers_app. apply Hk. by apply Hs2.
        -- destruct Hm2 as [((req & cause & Hreq & ->) &
                             (pre & batch & -> & Hpre & Hex & Hb))
                           |(Hok2 & Hex & i & Hlt & ->)].
           ++ left. split.
              ** exists req, cause. split; [| done].
                 apply elem_of_app. by right.
              ** exists (new1 ++ pre), batch. rewrite <- (assoc_L (++)).
                 split; [done |]. split; [by apply Forall_app |]. done.
           ++ right. split; [by apply Forall_app |].
              split; [apply Exists_app; by right |].
              exists i. split; [rewrite length_app; lia | done].
    + exists new1. split; [done |]. split.
      * eapply Forall_impl; [exact Hi1 |]. intros c. apply issued_app_l.
      * done.
Qed.

Lemma spec_steps_run model steps current w rs w' :
  spec_steps model steps current w rs w' ->
  forall results n, world n = w ->
  exists n' last,
    run_steps steps (Some current) results model n =
      (Return (Some last, results ++ map Some rs), n') /\
    world n' = w'.
Proof.
  induction 1 as [current w
                 |step steps current w rs w1 rest w2 Hp Hpar _ IH
                 |step steps current w rs last w1 rest w2 Hp Hseq _ IH];
    intros results n Hn.
  - exists n, current. simpl. by rewrite app_nil_r.
  - cbn [Engine.run_steps]. unfold Engine.run_step. rewrite Hp.
    destruct (spec_parallel_run _ _ _ _ _ _ Hpar n Hn) as (n1 & Hrun & Hw1).
    rewrite Hrun, gather_returns, str_join_texts.
    destruct (IH (results ++ map Some rs) n1 Hw1) as (n' & last & Hsteps & Hw').
    exists n', last. rewrite Hsteps, map_app, <- (assoc_L (++)). done.
  - cbn [Engine.run_steps]. unfold Engine.run_step. rewrite Hp.
    destruct (spec_sequential_run _ _ _ _ _ _ _ Hseq results n Hn)
      as (n1 & Hrun & Hw1).
    rewrite Hrun.
    destruct (IH (results ++ map Some rs) n1 Hw1) as (n' & last' & Hsteps & Hw').
    exists n', last'. rewrite Hsteps, map_app, <- (assoc_L (++)). done.
Qed.

(** *** A service that answers every call with a text *)

Lemma always_text_completes id current model w :
  (forall req w, is_Some (text_of (create req w).1)) ->
  exists r w', completes id current model w r w'.
Proof.
  intros Halways. unfold Engine.completes.
  destruct (Halways (request (Some current) id model) w) as [text Ht].
  destruct (create (request (Some current) id model) w) as [resp w'].
  destruct resp; simpl in Ht; try done. by eexists _, _.
Qed.

Lemma always_text_spec_parallel current model :
  (forall req w, is_Some (text_of (create req w).1)) ->
  forall ids w, exists rs w', spec_parallel current model ids w rs w'.
Proof.
  intros Halways ids. induction ids as [|id ids IH]; intros w.
  - eexists _, _. constructor.
  - destruct (always_text_completes id current model w Halways)
      as (r & w1 & Hc).
    destruct (IH w1) as (rs & w2 & Hs).
    eexists _, _. econstructor; [exact Hc | exact Hs].
Qed.

Lemma always_text_spec_sequential model :
  (forall req w, is_Some (text_of (create req w).1)) ->
  forall ids current w,
  exists rs last w', spec_sequential model ids current w rs last w'.
Proof.
  intros Halways ids. induction ids as [|id ids IH]; intros current w.
  - eexists _, _, _. constructor.
  - destruct (always_text_completes id current model w Halways)
      as (r & w1 & Hc).
    destruct (IH r w1) as (rs & last & w2 & Hs).
    eexists _, _, _. econstructor; [exact Hc | exact Hs].
Qed.

Lemma always_text_spec_steps model :
  (forall req w, is_Some (text_of (create req w).1)) ->
  forall steps current w, exists rs w', spec_steps model steps current w rs w'.
Proof.
  intros Halways steps. induction steps as [|step steps IH]; intros current w.
  - eexists _, _. constructor.
  - destruct (is_parallel step) eqn:Hp.
    + destruct (always_text_spec_parallel current model Halways
                  (assistants step) w) as (rs & w1 & Hs).
      destruct (IH (PyStr.join PyStr.nl rs) w1) as (rest & w2 & Hr).
      eexists _, _. eapply spec_steps_parallel; [done | exact Hs | exact Hr].
    + destruct (always_text_spec_sequential model Halways
                  (assistants step) current w) as (rs & last & w1 & Hs).
      destruct (IH last w1) as (rest & w2 & Hr).
      eexists _, _. eapply spec_steps_sequential; [done | exact Hs | exact Hr].
Qed.

(** *** A service that does not look at the system context

    What the engine returns or raises is then the same for whichever
    assistants the steps name. *)







(** *** The claims on [process_message] *)

(** A session that is not initialized raises before anything else happens. *)
Lemma process_message_uninitialized cm message workflow model n :
  system_state cm <> INITIALIZED ->
  process_message cm message workflow model n =
  (Raise (APIError not_initialized), cm, n).
Proof.
  intros H. unfold Engine.process_message.
  by destruct (system_state cm).
Qed.


(** What a run in an initialized session comes to: the calls it made, and
    either the join of their texts, returned and appended to the history
    after the user message, or an error and the user message alone.  The
    error is that of a call that failed, after which no other call was
    made but those of the same parallel step; or, when no call failed, that
    of a join over an answer without text. *)
Lemma process_message_log cm message workflow model n :
  system_state cm = INITIALIZED ->
  exists new,
    calls (process_message cm message workflow model n).2 = calls n ++ new /\
    Forall (issued model (all_ids workflow)) new /\
    system_state (process_message cm message workflow model n).1.2 =
      system_state cm /\
    match (process_message cm message workflow model n).1.1 with
    | Return final =>
        final = PyStr.join PyStr.nl (answers new) /\
        Forall (fun c => failed c = false) new /\
        Forall (fun c => no_text c = false) new /\
        map (fun c => system_context c.1) new =
          map (fun id => "You are " +:+ id) (all_ids workflow) /\
        spec_steps model workflow message (world n) (answers new)
          (world (process_message cm message workflow model n).2) /\
        conversation_history (process_message cm message workflow model n).1.2
        = conversation_history cm ++
            [mkMessage "user" message default_timestamp;
             mkMessage "assistant" final default_timestamp]
    | Raise e =>
        conversation_history (process_message cm message workflow model n).1.2
        = conversation_history cm ++
            [mkMessage "user" message default_timestamp] /\
        ((exists req cause,
            (req, Failure cause) ∈ new /\
            e = APIError (processing_failed +:+ response_failed +:+ cause)) /\
         stops_at_failure model workflow new
         \/
         Forall (fun c => failed c = false) new /\
         Exists (fun c => no_text c = true) new /\
         exists i,
           i < length new /\
           e = APIError (processing_failed +:+ not_a_str i))
    end.
Proof.
  intros Hinit. unfold Engine.process_message. rewrite Hinit.
  destruct (run_steps_log model workflow workflow (fun _ H => H)
              (Some message) [] n) as (new & Hc & Hi & Hm).
  destruct (run_steps workflow (Some message) [] model n)
    as [[[last results]|e] n1]; cbn [fst snd] in *; exists new.
  - destruct Hm as (Hr & Hok & Hsys & Hspec). simpl in Hr. subst results.
    destruct (str_join_cases PyStr.nl (map (fun c => text_of c.2) new))
      as [(rs & Hrs & ->)|(i & Hlt & Hnone & ->)]; cbn [fst snd].
    + destruct (texts_answers new rs Hrs) as [Hn <-].
      split; [done |]. split; [done |]. split; [done |]. split; [done |].
      split; [done |]. split; [done |]. split; [done |].
      split; [by apply Hspec |].
      unfold append_message. simpl. by rewrite <- (assoc_L (++)).
    + split; [done |]. split; [done |]. split; [done |]. split; [done |].
      right. split; [done |]. split; [by eapply none_no_text |].
      exists i. split; [by rewrite length_map in Hlt | done].
  - split; [done |]. split; [done |]. split; [done |]. split; [done |].
    destruct Hm as [((req & cause & Hreq & ->) & Hstop)
                   |(Hok & Hex & i & Hlt & ->)].
    + left. split; [by exists req, cause | done].
    + right. split; [done |]. split; [done |]. by exists i.
Qed.

(** C1: in an initialized session, [process_message] returns [final] and
    leaves the session as [cm'] exactly when the run worded by the
    specification does: the steps in order, a parallel step completing the
    same current message once for each assistant and passing on the join of
    its results, a sequential step chaining its assistants, the results
    accumulated in order, their join returned, and one user message and one
    assistant message appended to the history. *)
Theorem process_message_runs_workflow cm message workflow model n final cm' w' :
  system_state cm = INITIALIZED ->
  (exists n',
     process_message cm message workflow model n = (Return final, cm', n') /\
     world n' = w') <->
  spec_run cm message workflow model (world n) final cm' w'.
Proof.
  intros Hinit. split.
  - intros (n' & Hrun & Hw).
    destruct (process_message_log cm message workflow model n Hinit)
      as (new & _ & _ & Hst & Hm).
    rewrite Hrun in Hst, Hm. cbn [fst snd] in Hst, Hm.
    destruct Hm as (-> & _ & _ & _ & Hs & Hh). subst w'.
    exists (answers new). split; [done |]. split; [done |]. done.
  - intros (rs & Hs & -> & Hh & Hst).
    unfold Engine.process_message. rewrite Hinit.
    destruct (spec_steps_run _ _ _ _ _ _ Hs [] n eq_refl)
      as (n' & last & Hrun & Hw).
    exists n'. rewrite Hrun. cbn [app]. rewrite str_join_texts.
    split; [| done].
    destruct cm' as [h' st']. simpl in *. subst h' st'.
    unfold append_message. simpl. by rewrite <- (assoc_L (++)).
Qed.

(** C10: with no step, an initialized session returns the empty string;
    the history gains the user message and an assistant message whose
    content is empty, and the service is not called. *)
Theorem process_message_empty_workflow cm message model n :
  system_state cm = INITIALIZED ->
  process_message cm message [] model n =
  (Return "",
   mkChat (conversation_history cm ++
             [mkMessage "user" message default_timestamp;
              mkMessage "assistant" "" default_timestamp])
          INITIALIZED,
   n).
Proof.
  intros Hinit. unfold Engine.process_message, append_message.
  rewrite Hinit. simpl. by rewrite <- (assoc_L (++)).
Qed.

(** C2: in an initialized session, when a call of the run fails the run
    raises, and the calls stop with the failed call or, in a parallel
    step, with the calls of that step.  Whenever the run raises, the
    history has gained the user message and nothing else.  The run raises
    exactly when one of its calls failed or was answered without text. *)
Theorem process_message_failure cm message workflow model n :
  system_state cm = INITIALIZED ->
  let r := process_message cm message workflow model n in
  exists new,
    calls r.2 = calls n ++ new /\
    (Exists (fun c => failed c = true) new ->
       is_Some (raised r.1.1) /\ stops_at_failure model workflow new) /\
    (is_Some (raised r.1.1) ->
       conversation_history r.1.2 =
         conversation_history cm ++
           [mkMessage "user" message default_timestamp] /\
       system_state r.1.2 = system_state cm) /\
    (is_Some (raised r.1.1) <->
       Exists (fun c => failed c || no_text c = true) new).
Proof.
  intros Hinit.
  destruct (process_message_log cm message workflow model n Hinit)
    as (new & Hc & _ & Hst & Hm).
  cbn zeta. exists new. split; [done |].
  destruct (process_message cm message workflow model n).1.1 as [final|e];
    cbn [raised].
  - destruct Hm as (_ & Hok & Hn & _).
    split; [intros Hex; by destruct (no_failure new Hok) |].
    split; [by intros [? ?] |].
    split; [by intros [? ?] |]. intros Hex. by destruct (all_texts new Hok Hn).
  - destruct Hm as (Hh & [((req & cause & Hreq & _) & Hstop)|(Hok & Hex & _)]).
    + split; [intros _; split; [by eexists | done] |].
      split; [done |]. split; [| by eexists]. intros _.
      apply Exists_exists. exists (req, Failure cause). by split.
    + split; [intros Hf; by destruct (no_failure new Hok) |].
      split; [done |]. split; [| by eexists]. intros _.
      eapply Exists_impl; [exact Hex |]. intros c Hc'. simpl in Hc'.
      rewrite Hc'. by destruct (failed c).
Qed.


(** The call made for an assistant id carries the literal ["You are "]
    followed by that id as its system context, and the message as its user
    content. *)
Lemma get_assistant_response_context message assistant_id model n :
  exists r,
    calls (get_assistant_response message assistant_id model n).2 =
      calls n ++
        [(mkRequest model
            [("system", Some ("You are " +:+ assistant_id));
             ("user", message)], r)] /\
    (get_assistant_response message assistant_id model n).1 = outcome r.
Proof. rewrite get_assistant_response_eq. by eexists. Qed.

(** C3, as the code has it: every call a step makes is made for one of its
    assistant ids, with the literal ["You are "] followed by that id as
    system context; a parallel step makes one such call for each of its
    ids, all on the current message, and so does a sequential step that
    returns, in the order of the ids.  Nothing of an assistant store enters
    the request. *)
Theorem run_step_contexts step current results model n :
  exists new,
    calls (run_step step current results model n).2 = calls n ++ new /\
    Forall (fun c => exists id message,
              id ∈ assistants step /\
              c.1 = mkRequest model
                      [("system", Some ("You are " +:+ id));
                       ("user", message)]) new /\
    (is_parallel step = true ->
     map fst new =
       map (fun id => mkRequest model
                        [("system", Some ("You are " +:+ id));
                         ("user", current)])
           (assistants step)) /\
    (is_Some (returned (run_step step current results model n).1) ->
     map (fun c => system_context c.1) new =
       map (fun id => "You are " +:+ id) (assistants step)).
Proof.
  assert (step ∈ [step]) as Hin by left.
  destruct (run_step_log model step [step] Hin current results n)
    as (new & Hc & Hi & Hpar & Hm).
  exists new. split; [done |]. split; [done |]. split; [done |].
  destruct (run_step step current results model n)
    as [[[next results']|e] n1]; cbn [fst snd returned] in *;
    [| by intros [? ?]].
  intros _. by destruct Hm as (_ & _ & Hsys & _).
Qed.

(** C9: every call of a run is made for an assistant id of the workflow
    with ["You are "] and the raw id as system context, and no store is
    consulted.  A run raises only for what the service answered: the error
    is that of a call that failed, or, when none failed, that of the join
    over an answer without text.  When the service answers every call with
    a text the run returns, whatever the ids are, after one such call for
    each id of each step, in order. *)
Theorem process_message_ignores_store cm message workflow model n :
  system_state cm = INITIALIZED ->
  let r := process_message cm message workflow model n in
  exists new,
    calls r.2 = calls n ++ new /\
    Forall (fun c => exists id current,
              id ∈ all_ids workflow /\
              c.1 = mkRequest model
                      [("system", Some ("You are " +:+ id));
                       ("user", current)]) new /\
    (forall e, r.1.1 = Raise e ->
       (exists req cause,
          (req, Failure cause) ∈ new /\
          e = APIError (processing_failed +:+ response_failed +:+ cause)) \/
       (Exists (fun c => no_text c = true) new /\
        exists i,
          i < length new /\
          e = APIError (processing_failed +:+ not_a_str i))) /\
    ((forall req w, is_Some (text_of (create req w).1)) ->
     is_Some (returned r.1.1) /\
     map (fun c => system_context c.1) new =
       map (fun id => "You are " +:+ id) (all_ids workflow)).
Proof.
  intros Hinit.
  destruct (process_message_log cm message workflow model n Hinit)
    as (new & Hc & Hi & _ & Hm).
  cbn zeta. exists new. split; [done |]. split; [done |].
  destruct (process_message cm message workflow model n) as [[o cm1] n1] eqn:E.
  cbn [fst snd] in *. destruct o as [final|e].
  - destruct Hm as (_ & _ & _ & Hsys & _).
    split; [done |]. intros _. split; [by eexists | done].
  - destruct Hm as (_ & Hm). split.
    + intros e' [= <-].
      destruct Hm as [(Hcause & _)|(_ & Hex & Hi')]; [by left | by right].
    + intros Halways. exfalso.
      destruct (always_text_spec_steps model Halways workflow message
                  (world n)) as (rs & w' & Hs).
      destruct (spec_steps_run _ _ _ _ _ _ Hs [] n eq_refl)
        as (n' & last & Hrun & _).
      revert E. unfold Engine.process_message.
      rewrite Hinit, Hrun. cbn [app]. by rewrite str_join_texts.
Qed.

End Service.
(** *** The engine on sample runs *)

(** The run of the specification's example: the parallel step asks "A" and
    "B" for a completion of "X", the sequential step asks "C" for a
    completion of their joined answers. *)
Example sample_run_calls :
  let r := process_message scripted first_failure "t0" sample_chat "X"
             sample_workflow "gpt"
             (mkNet [Content "a"; Content "b"; Content "c"] []) in
  r.1.1 = Return (PyStr.join PyStr.nl ["a"; "b"; "c"]) /\
  calls r.2 =
    [(request (Some "X") "A" "gpt", Content "a");
     (request (Some "X") "B" "gpt", Content "b");
     (request (Some (PyStr.join PyStr.nl ["a"; "b"])) "C" "gpt",
      Content "c")] /\
  conversation_history r.1.2 =
    [mkMessage "user" "X" "t0";
     mkMessage "assistant" (PyStr.join PyStr.nl ["a"; "b"; "c"]) "t0"].
Proof. by vm_compute. Qed.

(** An answer without text is no failure of the call.  In a sequential
    step the next assistant is called all the same, with [None] as its
    message, and the run raises when the results are joined; the error is
    the text of the [TypeError] after the prefix of [process_message]. *)
Example answer_without_text :
  let r := process_message scripted first_failure "t0" sample_chat "X"
             [mkStep ["A"; "B"] false "s1"] "gpt"
             (mkNet [NoContent; Content "b"] []) in
  r.1.1 =
    Raise (APIError
             (processing_failed
              +:+ "sequence item 0: expected str instance, NoneType found"))
  /\
  calls r.2 =
    [(request (Some "X") "A" "gpt", NoContent);
     (request None "B" "gpt", Content "b")] /\
  conversation_history r.1.2 = [mkMessage "user" "X" "t0"].
Proof. by vm_compute. Qed.

(** In a parallel step the join of the step raises, and the steps after it
    are not run. *)
Example answer_without_text_parallel :
  let r := process_message scripted first_failure "t0" sample_chat "X"
             sample_workflow "gpt"
             (mkNet [Content "a"; NoContent; Content "c"] []) in
  r.1.1 =
    Raise (APIError
             (processing_failed
              +:+ "sequence item 1: expected str instance, NoneType found"))
  /\
  calls r.2 =
    [(request (Some "X") "A" "gpt", Content "a");
     (request (Some "X") "B" "gpt", NoContent)] /\
  conversation_history r.1.2 = [mkMessage "user" "X" "t0"].
Proof. by vm_compute. Qed.

Lemma process_message_runs_workflow_witness :
  system_state sample_chat = INITIALIZED /\
  spec_run scripted "t0" sample_chat "X" sample_workflow "gpt"
    [Content "a"; Content "b"; Content "c"]
    (PyStr.join PyStr.nl ["a"; "b"; "c"])
    (mkChat [mkMessage "user" "X" "t0";
             mkMessage "assistant" (PyStr.join PyStr.nl ["a"; "b"; "c"]) "t0"]
            INITIALIZED)
    [].
Proof.
  split; [reflexivity |].
  apply (proj1 (process_message_runs_workflow scripted first_failure "t0"
                  sample_chat "X" sample_workflow "gpt"
                  (mkNet [Content "a"; Content "b"; Content "c"] [])
                  _ _ _ eq_refl)).
  eexists. split; reflexivity.
Defined.

Lemma process_message_empty_workflow_witness :
  system_state sample_chat = INITIALIZED /\
  process_message scripted first_failure "t0" sample_chat "hello" [] "gpt"
    (mkNet [] []) =
  (Return "",
   mkChat [mkMessage "user" "hello" "t0"; mkMessage "assistant" "" "t0"]
          INITIALIZED,
   mkNet [] []).
Proof.
  split; [reflexivity |].
  apply (process_message_empty_workflow scripted first_failure "t0"
           sample_chat "hello" "gpt" (mkNet [] []) eq_refl).
Defined.

Lemma process_message_failure_witness :
  let r := process_message scripted first_failure "t0" sample_chat "X"
             sample_workflow "gpt"
             (mkNet [Content "a"; Content "b"; Failure "timeout"] []) in
  system_state sample_chat = INITIALIZED /\
  Exists (fun c => failed c = true) (calls r.2) /\
  is_Some (raised r.1.1) /\
  stops_at_failure "gpt" sample_workflow (calls r.2) /\
  conversation_history r.1.2 = [mkMessage "user" "X" "t0"].
Proof.
  intros r. split; [reflexivity |].
  assert (Exists (fun c => failed c = true) (calls r.2)) as Hex.
  { vm_compute. do 2 apply Exists_cons_tl. apply Exists_cons_hd.
    reflexivity. }
  split; [exact Hex |].
  destruct (process_message_failure scripted first_failure "t0" sample_chat
              "X" sample_workflow "gpt"
              (mkNet [Content "a"; Content "b"; Failure "timeout"] [])
              eq_refl) as (new & Hc & Hfail & Hhist & _).
  change (calls r.2 = new) in Hc. rewrite Hc in Hex |- *.
  destruct (Hfail Hex) as [Hr Hstop].
  split; [exact Hr |]. split; [exact Hstop |].
  exact (proj1 (Hhist Hr)).
Defined.



(** C3 as stated fails: the assistant "reviewer" is in the store with a
    role and a prompt, and the call made for it has neither as its system
    context. *)
Lemma persona_is_not_the_context :
  let r := process_message persona_echo (fun _ => 0) "t0" sample_chat "X"
             review_workflow "gpt" (mkNet tt []) in
  AssistantStore.get_assistant "reviewer" AssistantStore.sample_manager =
    Some AssistantStore.sample_reviewer /\
  map (fun c => system_context c.1) (calls r.2) = ["You are reviewer"] /\
  "You are reviewer" <> AssistantStore.prompt AssistantStore.sample_reviewer /\
  "You are reviewer" <> AssistantStore.role AssistantStore.sample_reviewer /\
  PyStr.contains (AssistantStore.prompt AssistantStore.sample_reviewer)
                 "You are reviewer" = false /\
  PyStr.contains (AssistantStore.role AssistantStore.sample_reviewer)
                 "You are reviewer" = false.
Proof. by vm_compute. Qed.

Lemma process_message_ignores_store_witness :
  let r := process_message persona_echo (fun _ => 0) "t0" sample_chat "X"
             [mkStep ["ghost"] false "s1"] "gpt" (mkNet tt []) in
  system_state sample_chat = INITIALIZED /\
  AssistantStore.get_assistant "ghost" AssistantStore.sample_manager = None /\
  (forall req w, is_Some (text_of (persona_echo req w).1)) /\
  is_Some (returned r.1.1) /\
  map (fun c => system_context c.1) (calls r.2) = ["You are ghost"].
Proof.
  intros r. split; [reflexivity |]. split; [reflexivity |].
  assert (forall req w, is_Some (text_of (persona_echo req w).1)) as Halways
    by (intros req w; eexists; reflexivity).
  split; [exact Halways |].
  destruct (process_message_ignores_store persona_echo (fun _ => 0) "t0"
              sample_chat "X" [mkStep ["ghost"] false "s1"] "gpt"
              (mkNet tt []) eq_refl) as (new & Hc & _ & _ & Hret).
  destruct (Hret Halways) as [Hsome _]. split; [exact Hsome | reflexivity].
Defined.

End EngineFacts.

(** ** More on the assistant store *)
Module AssistantExtra.

Import AssistantStore DictFacts.



Lemma filter_all {A} (P : A -> Prop) `{!forall x, Decision (P x)}
    (l : list A) :
  Forall P l -> filter P l = l.
Proof.
  induction 1 as [|x l Hx _ IH]; [done |].
  by rewrite filter_cons_True, IH.
Qed.

(** Deleting a key of a dictionary removes its entry and no other. *)
Lemma del_filter {V} (k : string) (d : list (string * V)) :
  NoDup (PyDict.keys d) ->
  PyDict.del k d = filter (fun kv => kv.1 <> k) d.
Proof.
  unfold PyDict.keys. induction d as [|[k' v'] r IH]; intros Hnd; [done |].
  simpl in Hnd. apply NoDup_cons in Hnd. destruct Hnd as [Hk' Hnd].
  cbn [PyDict.del]. destruct (String.eqb_spec k k') as [->|Hne].
  - rewrite filter_cons_False by (simpl; congruence).
    symmetry. apply filter_all.
    apply Forall_forall. intros [j v] Hin. simpl. intros ->.
    apply Hk'. apply list_elem_of_In, in_map_iff. exists (k', v).
    split; [done | by apply list_elem_of_In].
  - rewrite filter_cons_True by (simpl; congruence). by rewrite IH.
Qed.




Lemma fold_store_config l m :
  config_assistants (fold_left store_under_id l m) = config_assistants m.
Proof.
  revert m. induction l as [|a l IH]; intros m; [done |].
  simpl. by rewrite IH.
Qed.

Lemma last_with_id_snoc k l a :
  last_with_id k (l ++ [a]) =
  if String.eqb k (id a) then Some a else last_with_id k l.
Proof. unfold last_with_id. rewrite map_app. cbn [map]. by rewrite rev_unit. Qed.

(** What is found under a key after a run of [store_under_id]. *)
Lemma fold_store_lookup k l m :
  PyDict.get k (assistants (fold_left store_under_id l m)) =
  match last_with_id k l with
  | Some a => Some a
  | None => PyDict.get k (assistants m)
  end.
Proof.
  induction l as [|a l IH] using rev_ind; [done |].
  rewrite fold_left_app, last_with_id_snoc. simpl.
  destruct (String.eqb_spec k (id a)) as [->|Hne].
  - apply get_set_eq.
  - rewrite get_set_ne by congruence. exact IH.
Qed.

Lemma fold_store_by_id l m :
  stored_by_id m -> stored_by_id (fold_left store_under_id l m).
Proof.
  revert m. induction l as [|a l IH]; intros m Hm; [done |].
  simpl. apply IH. destruct Hm as [Hown Hnd]. split; simpl.
  - by apply Forall_set.
  - by apply NoDup_keys_set.
Qed.


Section Manager.

Variable lower : string -> string.
Variable default_created_at default_modified_at : string.
Variable refuses_assignment : string -> bool.

Local Abbreviation add_assistant :=
  (add_assistant lower default_created_at default_modified_at).
Local Abbreviation update_assistant := (update_assistant refuses_assignment).



Lemma new_manager_lookup defaults config k :
  get_assistant k (new_manager defaults config) =
  match last_with_id k (default [] config) with
  | Some a => Some a
  | None => last_with_id k (PyDict.values defaults)
  end.
Proof.
  unfold get_assistant, new_manager, load_saved_assistants,
    load_default_assistants.
  rewrite fold_store_config. simpl.
  destruct config as [entries|]; simpl.
  - rewrite !fold_store_lookup. simpl.
    by destruct (last_with_id k (PyDict.values defaults)).
  - rewrite fold_store_lookup. simpl.
    by destruct (last_with_id k (PyDict.values defaults)).
Qed.

(** X4: what a new manager holds under an id is the last entry of the
    configuration with that id, or else the last default with that id; the
    entries of the configuration replace defaults and add to them.
    Starting up writes nothing to the configuration. *)
Theorem new_manager_merges defaults config k :
  get_assistant k (new_manager defaults config) =
    match last_with_id k (default [] config) with
    | Some a => Some a
    | None => last_with_id k (PyDict.values defaults)
    end /\
  config_assistants (new_manager defaults config) = config.
Proof.
  split; [apply new_manager_lookup |].
  unfold new_manager, load_saved_assistants, load_default_assistants.
  rewrite fold_store_config. simpl.
  destruct config; [| by rewrite fold_store_config].
  by rewrite !fold_store_config.
Qed.

(** X5: the three built-in assistants are in every new manager; the
    configuration can replace one of them, under the same id, and cannot
    leave one out. *)
Theorem builtin_assistants_present created modified config k :
  k ∈ ["code_expert"; "reviewer"; "architect"] ->
  is_Some (get_assistant k
             (new_manager (DEFAULT_ASSISTANTS created modified) config)) /\
  (last_with_id k (default [] config) = None ->
   get_assistant k (new_manager (DEFAULT_ASSISTANTS created modified) config)
   = PyDict.get k (DEFAULT_ASSISTANTS created modified)).
Proof.
  intros Hk. rewrite new_manager_lookup.
  assert (last_with_id k (PyDict.values (DEFAULT_ASSISTANTS created modified))
          = PyDict.get k (DEFAULT_ASSISTANTS created modified) /\
          is_Some (PyDict.get k (DEFAULT_ASSISTANTS created modified)))
    as [Hlast Hsome].
  { repeat (apply elem_of_cons in Hk; destruct Hk as [->|Hk]);
      [| | | by apply elem_of_nil in Hk]; (split; [reflexivity | by eexists]). }
  rewrite Hlast. destruct (last_with_id k (default [] config)); split;
    try done; by eexists.
Qed.


Lemma apply_items_keeps_id data a :
  Forall (fun kv => kv.1 <> "id") data ->
  id (apply_items refuses_assignment data a).1 = id a.
Proof.
  revert a. induction data as [|[k v] data IH]; intros a H; [done |].
  inversion H as [|? ? Hk Hr]; subst. simpl in *.
  destruct (refuses_assignment k); [done |].
  rewrite IH by done. destruct (hasattr k); [| done].
  rewrite AssistantFacts.setattr_id. apply String.eqb_neq in Hk.
  by rewrite Hk.
Qed.

(** X7: the store is kept by id: a new manager stores every assistant under
    its own id with no key twice, and adding, deleting and an update whose
    data has no [id] item keep it so. *)
Theorem stored_by_id_invariant :
  (forall defaults config, stored_by_id (new_manager defaults config)) /\
  (forall name role prompt m,
     stored_by_id m -> stored_by_id (add_assistant name role prompt m).2) /\
  (forall k m, stored_by_id m -> stored_by_id (delete_assistant k m).2) /\
  (forall k data now m,
     Forall (fun kv => kv.1 <> "id") data ->
     stored_by_id m -> stored_by_id (update_assistant k data now m).2).
Proof.
  split; [| split; [| split]].
  - intros defaults config.
    unfold new_manager, load_saved_assistants, load_default_assistants.
    rewrite fold_store_config. simpl.
    destruct config; [apply fold_store_by_id |];
      apply fold_store_by_id; split; simpl; constructor.
  - intros name role prompt m [Hown Hnd].
    unfold AssistantStore.add_assistant.
    destruct (PyDict.mem _ _); [done |]. split; simpl.
    + by apply Forall_set.
    + by apply NoDup_keys_set.
  - intros k m [Hown Hnd]. unfold delete_assistant.
    destruct (PyDict.mem _ _); [| done]. split; simpl.
    + rewrite del_filter by done. apply Forall_forall. intros x Hx.
      apply list_elem_of_filter in Hx. destruct Hx as [_ Hx].
      rewrite Forall_forall in Hown. by apply Hown.
    + rewrite del_filter by done. unfold PyDict.keys.
      clear Hown. revert Hnd. unfold PyDict.keys.
      induction (assistants m) as [|[j a] r IH]; [done |].
      simpl. intros Hnd. apply NoDup_cons in Hnd. destruct Hnd as [Hj Hnd].
      destruct (decide (j <> k)).
      * rewrite filter_cons_True by done. simpl. apply NoDup_cons.
        split; [| by apply IH]. intros Hin. apply Hj.
        apply list_elem_of_In, in_map_iff in Hin.
        destruct Hin as (x & Hx & Hin). apply list_elem_of_In in Hin.
        apply list_elem_of_filter in Hin. destruct Hin as [_ Hin].
        apply list_elem_of_In, in_map_iff. exists x.
        split; [done | by apply list_elem_of_In].
      * rewrite filter_cons_False by done. by apply IH.
  - intros k data now m Hdata [Hown Hnd].
    unfold AssistantStore.update_assistant.
    destruct (PyDict.get k (assistants m)) as [a|] eqn:E; [| done].
    pose proof (apply_items_keeps_id data a Hdata) as Hid.
    assert (id a = k) as Hk.
    { apply get_Some_elem in E. rewrite Forall_forall in Hown.
      exact (Hown _ E). }
    destruct (apply_items refuses_assignment data a) as [a1 [|]];
      simpl in *; split; simpl.
    + apply Forall_set; [done |]. simpl. congruence.
    + by apply NoDup_keys_set.
    + apply Forall_set; [done |]. simpl. congruence.
    + by apply NoDup_keys_set.
Qed.

End Manager.



Lemma builtin_assistants_present_witness :
  "reviewer" ∈ ["code_expert"; "reviewer"; "architect"] /\
  is_Some (get_assistant "reviewer"
             (new_manager (DEFAULT_ASSISTANTS "t0" "t0")
                (Some [sample_reviewer]))).
Proof.
  assert ("reviewer" ∈ ["code_expert"; "reviewer"; "architect"]) as Hin
    by (right; left).
  split; [exact Hin |].
  apply (builtin_assistants_present "t0" "t0" (Some [sample_reviewer])
           "reviewer" Hin).
Defined.


End AssistantExtra.

(** ** The handlers of the assistant forms *)
Module InterfaceFacts.

Import AssistantStore DictFacts Interface.

Lemma has_space_app a b :
  has_space (a +:+ b) = has_space a || has_space b.
Proof.
  induction a as [|c a IH]; simpl; [done |].
  rewrite IH. by destruct (Ascii.eqb c " ").
Qed.

Lemma replace_space_no_space s : has_space (PyStr.replace_space s) = false.
Proof.
  induction s as [|c s IH]; simpl; [done |].
  rewrite IH. destruct (Ascii.eqb_spec c " "%char) as [->|Hne]; [done |].
  apply Ascii.eqb_neq in Hne. by rewrite Hne.
Qed.

Lemma choice_has_space a : has_space (choice a) = true.
Proof.
  unfold choice. rewrite !has_space_app. simpl.
  by rewrite orb_true_r.
Qed.

Lemma has_space_nonempty s : has_space s = true -> String.eqb s "" = false.
Proof. by destruct s. Qed.

(** A key with a space is not in a store whose keys have none. *)
Lemma spaced_key_absent (c : string) (m : AssistantManager) :
  Forall (fun k => has_space k = false) (PyDict.keys (assistants m)) ->
  has_space c = true ->
  PyDict.get c (assistants m) = None.
Proof.
  intros Hkeys Hc. destruct (PyDict.get c (assistants m)) eqn:E; [| done].
  exfalso. assert (c ∈ PyDict.keys (assistants m)) as Hin.
  { apply get_elem_of_keys. by rewrite E. }
  rewrite Forall_forall in Hkeys. specialize (Hkeys c Hin). congruence.
Qed.

Section Handlers.

Variable lower : string -> string.
Variable default_created_at default_modified_at : string.
Variable refuses_assignment : string -> bool.

Local Abbreviation add_assistant :=
  (add_assistant lower default_created_at default_modified_at).
Local Abbreviation save_assistant_config :=
  (save_assistant_config lower default_created_at default_modified_at
     refuses_assignment).

(** X8: the ids [add_assistant] makes have no space, whatever the name is;
    a store whose keys have no space keeps that property when an assistant
    is added. *)
Theorem derived_ids_have_no_space name role prompt m :
  has_space (derive_id lower name) = false /\
  (Forall (fun k => has_space k = false) (PyDict.keys (assistants m)) ->
   Forall (fun k => has_space k = false)
          (PyDict.keys (assistants (add_assistant name role prompt m).2))).
Proof.
  split; [apply replace_space_no_space |].
  intros Hkeys. unfold AssistantStore.add_assistant.
  destruct (PyDict.mem _ _) eqn:E; [done |]. simpl.
  unfold PyDict.mem in E.
  destruct (PyDict.get (derive_id lower name) (assistants m)) eqn:E'; [done |].
  rewrite (set_absent _ _ _ E'). unfold PyDict.keys in *.
  rewrite map_app. apply Forall_app. split; [done |].
  apply Forall_singleton. apply replace_space_no_space.
Qed.

(** X9: the forms hand the selected entry of the list to the store as an id.
    In a store whose keys have no space, no entry of the list is a key: the
    form shows nothing for it, deleting it fails, saving changes to it
    fails, and the store stays as it was. *)
Theorem selected_choice_is_no_id m c name role prompt now :
  Forall (fun k => has_space k = false) (PyDict.keys (assistants m)) ->
  c ∈ get_assistant_choices m ->
  load_assistant_config (Some c) false m = ("", "", "") /\
  delete_selected (Some c) m = (("删除失败", get_assistant_choices m), m) /\
  (name <> "" -> role <> "" -> prompt <> "" ->
   save_assistant_config false name role prompt (Some c) now m =
   (("更新失败", get_assistant_choices m), m)).
Proof.
  intros Hkeys Hc.
  assert (has_space c = true) as Hsp.
  { unfold get_assistant_choices in Hc.
    apply list_elem_of_In, in_map_iff in Hc. destruct Hc as (a & <- & _).
    apply choice_has_space. }
  pose proof (spaced_key_absent c m Hkeys Hsp) as Hnone.
  pose proof (has_space_nonempty c Hsp) as Hne.
  split; [| split].
  - unfold load_assistant_config, get_assistant. simpl.
    by rewrite Hne, Hnone.
  - unfold delete_selected, AssistantStore.delete_assistant, PyDict.mem.
    simpl. by rewrite Hne, Hnone.
  - intros Hn Hr Hp. unfold Interface.save_assistant_config.
    apply String.eqb_neq in Hn, Hr, Hp. rewrite Hn, Hr, Hp. simpl.
    rewrite Hne. simpl. unfold update_assistant. by rewrite Hnone.
Qed.

(** X10: saving the form of an existing assistant under its id: the call
    succeeds; the name, the role and the prompt are those of the form; the
    id, the key and the creation time are as before; the modification time
    is that of the call; no other entry changes. *)
Theorem save_assistant_config_edits k a name role prompt now m :
  name <> "" -> role <> "" -> prompt <> "" -> k <> "" ->
  refuses_assignment "name" = false ->
  refuses_assignment "role" = false ->
  refuses_assignment "prompt" = false ->
  get_assistant k m = Some a ->
  let r := save_assistant_config false name role prompt (Some k) now m in
  r.1.1 = "助手配置更新成功" /\
  get_assistant k r.2 =
    Some (mkAssistant (id a) name role prompt (created_at a) now) /\
  PyDict.keys (assistants r.2) = PyDict.keys (assistants m) /\
  length r.1.2 = length (get_assistant_choices m) /\
  (forall j, j <> k -> get_assistant j r.2 = get_assistant j m).
Proof.
  intros Hn Hr Hp Hk Rn Rr Rp Hget.
  unfold Interface.save_assistant_config.
  apply String.eqb_neq in Hn, Hr, Hp, Hk. rewrite Hn, Hr, Hp. simpl.
  rewrite Hk. simpl. unfold get_assistant in *.
  unfold update_assistant. rewrite Hget. simpl. rewrite Rn, Rr, Rp. simpl.
  split; [done |]. split; [apply get_set_eq |].
  assert (PyDict.keys
            (PyDict.set k (mkAssistant (id a) name role prompt
                                       (created_at a) now) (assistants m))
          = PyDict.keys (assistants m)) as Hkeys.
  { apply keys_set_present. by rewrite Hget. }
  split; [done |]. split.
  - unfold get_assistant_choices, get_all_assistants, PyDict.values.
    rewrite !length_map. apply (f_equal length) in Hkeys.
    unfold PyDict.keys in Hkeys. by rewrite !length_map in Hkeys.
  - intros j Hj. apply get_set_ne. congruence.
Qed.

End Handlers.

Lemma selected_choice_is_no_id_witness :
  Forall (fun k => has_space k = false)
         (PyDict.keys (assistants sample_manager)) /\
  "Reviewer (critic)" ∈ get_assistant_choices sample_manager /\
  delete_selected (Some "Reviewer (critic)") sample_manager =
    (("删除失败", get_assistant_choices sample_manager), sample_manager).
Proof.
  assert (Forall (fun k => has_space k = false)
                 (PyDict.keys (assistants sample_manager))) as Hkeys
    by (by repeat constructor).
  assert ("Reviewer (critic)" ∈ get_assistant_choices sample_manager) as Hin
    by (right; left).
  split; [exact Hkeys |]. split; [exact Hin |].
  apply (selected_choice_is_no_id PyStr.ascii_lower "t1" "t1" sample_refuses
           sample_manager "Reviewer (critic)" "n" "r" "p" "t1" Hkeys Hin).
Defined.

Lemma save_assistant_config_edits_witness :
  get_assistant "reviewer" sample_manager = Some sample_reviewer /\
  get_assistant "reviewer"
    (save_assistant_config PyStr.ascii_lower "t1" "t1" sample_refuses false
       "Senior Reviewer" "auditor" "Audit the code." (Some "reviewer") "t9"
       sample_manager).2 =
  Some (mkAssistant "reviewer" "Senior Reviewer" "auditor" "Audit the code."
                    "t0" "t9").
Proof.
  split; [reflexivity |].
  apply (save_assistant_config_edits PyStr.ascii_lower "t1" "t1"
           sample_refuses "reviewer" sample_reviewer "Senior Reviewer"
           "auditor" "Audit the code." "t9" sample_manager);
    (reflexivity || discriminate).
Defined.

End InterfaceFacts.

(** ** More on the workflow store *)
Module WorkflowExtra.

Import WorkflowStore ListFacts DictFacts WorkflowFacts.

(** Valid references all name a step. *)
Lemma omap_lookup_length {A} (so : list A) (l : list nat) :
  Forall (fun q => q < length so) l ->
  length (omap (fun q => so !! q) l) = length l.
Proof.
  induction 1 as [|q l Hq _ IH]; [done |].
  rewrite omap_cons_eq.
  apply lookup_lt_is_Some_2 in Hq. destruct Hq as [x ->]. simpl.
  by rewrite IH.
Qed.

Lemma draft_length s :
  valid_lists s -> length (draft s) = length (deref_list s (current_workflow s)).
Proof.
  intros Hv. unfold draft, deref_steps. apply omap_lookup_length.
  by apply deref_list_valid.
Qed.

Lemma draft_nil s :
  valid_lists s -> (draft s = [] <-> deref_list s (current_workflow s) = []).
Proof.
  intros Hv. pose proof (draft_length s Hv) as Hl.
  split; intros H; rewrite H in Hl; simpl in Hl.
  - by destruct (deref_list s (current_workflow s)).
  - by destruct (draft s).
Qed.

Section Manager.

Variable strftime_now : nat -> string.
Variable default_created_at default_modified_at : string.

Local Abbreviation init := (init strftime_now).
Local Abbreviation add_step := (add_step strftime_now).
Local Abbreviation save_current_workflow :=
  (save_current_workflow default_created_at default_modified_at).
Local Abbreviation reachable :=
  (reachable strftime_now default_created_at default_modified_at).
Local Abbreviation run_op := (run_op strftime_now).

Local Abbreviation reachable_wf :=
  (reachable_wf strftime_now default_created_at default_modified_at).

(** X11: the manager's invariant, in the terms of its user: each workflow is
    stored under its own name, no name occurs twice, the draft is a list of
    its own, shared with no stored workflow, and the draft and every stored
    workflow hold one step for each of their entries. *)
Theorem reachable_state_invariant s :
  reachable s ->
  Forall (fun kw => name kw.2 = kw.1) (workflows s) /\
  NoDup (PyDict.keys (workflows s)) /\
  Forall (fun kw => steps kw.2 <> current_workflow s) (workflows s) /\
  length (draft s) = length (deref_list s (current_workflow s)) /\
  Forall (fun kw => length (deref_steps s (steps kw.2)) =
                    length (deref_list s (steps kw.2))) (workflows s).
Proof.
  intros Hr. destruct (reachable_wf s Hr) as (Hcur & Hv & He & Hn).
  split; [| split; [done | split; [| split]]].
  - eapply Forall_impl; [exact He |]. by intros kw (? & _).
  - eapply Forall_impl; [exact He |]. by intros kw (_ & _ & ?).
  - by apply draft_length.
  - apply Forall_forall. intros kw _. unfold deref_steps.
    apply omap_lookup_length. by apply deref_list_valid.
Qed.

(** X12: [add_step] succeeds exactly when some id is not blank.  It then puts
    one step at the end of the draft, holding the ids that are not blank,
    in order and without removing repetitions, with the flag given and the
    clock's reading as its id; a refused call changes nothing; no stored
    workflow changes in either case. *)
Theorem add_step_appends assistants is_parallel s :
  reachable s ->
  let ids := filter (fun a => a <> "") assistants in
  let r := add_step assistants is_parallel s in
  (r.1 = true <-> ids <> []) /\
  (ids = [] -> r.2 = s) /\
  (ids <> [] ->
   draft r.2 = draft s ++ [mkStep ids is_parallel (strftime_now (ticks s))]) /\
  workflows r.2 = workflows s /\
  (forall name, stored_steps r.2 name = stored_steps s name).
Proof.
  intros Hr ids r. pose proof (reachable_wf s Hr) as Hs.
  split; [| split; [| split; [| split]]].
  - subst r ids. unfold WorkflowStore.add_step.
    destruct assistants as [|x l]; [done |].
    destruct (filter _ (x :: l)) as [|y b]; [done |]. simpl. by split.
  - subst r ids. unfold WorkflowStore.add_step.
    destruct assistants as [|x l]; [done |]. by intros ->.
  - subst r ids. unfold WorkflowStore.add_step. intros Hne.
    destruct assistants as [|x l]; [done |].
    destruct (filter _ (x :: l)) as [|y b] eqn:E; [done |].
    destruct Hs as (Hcur & Hv & _).
    unfold draft, deref_steps, deref_list, list_append. simpl.
    unfold ref in *. rewrite list_lookup_alter_eq.
    apply lookup_lt_is_Some_2 in Hcur. destruct Hcur as [l0 Hl0].
    rewrite Hl0. simpl. rewrite omap_app.
    assert (Forall (fun q => q < length (step_objs s)) l0) as Hvl0
      by (by eapply Forall_lookup_1).
    rewrite (omap_lookup_app _ _ _ Hvl0). f_equal.
    rewrite omap_cons_eq, lookup_app_r, Nat.sub_diag by lia. done.
  - subst r. destruct (add_step_cases strftime_now assistants is_parallel s)
      as [->|(st & _ & _ & _ & Hw & _)]; done.
  - intros name. by apply add_step_stored.
Qed.

(** X13: [save_current_workflow] succeeds exactly when the name is not empty
    and the draft holds a step; a refused call changes nothing.  After a
    successful call the store holds the steps of the draft under the name,
    with the description given, whatever it held under it before; the
    draft and the other workflows are as they were; and the file holds
    every workflow of the store. *)
Theorem save_current_workflow_snapshot name description s :
  reachable s ->
  let r := save_current_workflow name description s in
  (r.1 = true <-> name <> "" /\ draft s <> []) /\
  (r.1 = false -> r.2 = s) /\
  (r.1 = true ->
   stored_steps r.2 name = Some (draft s) /\
   (WorkflowStore.description <$> PyDict.get name (workflows r.2))
     = Some description /\
   draft r.2 = draft s /\
   (forall j, j <> name -> stored_steps r.2 j = stored_steps s j) /\
   workflow_file r.2 =
     Some (map (fun kw => (kw.1, to_dict r.2 kw.2)) (workflows r.2))).
Proof.
  intros Hr r. pose proof (reachable_wf s Hr) as Hs.
  destruct Hs as (Hcur & Hv & He & Hn).
  pose proof (draft_nil s Hv) as Hnil.
  subst r. unfold WorkflowStore.save_current_workflow.
  destruct (String.eqb_spec name "") as [->|Hname].
  { simpl. split; [split; [done | by intros [? _]] |]. by split. }
  destruct (deref_list s (current_workflow s)) as [|q l] eqn:E.
  { simpl. split; [| by split].
    split; [done |]. intros [_ Hd]. exfalso. apply Hd. by apply Hnil. }
  assert (draft s <> []) as Hd by (intros Hd; by apply Hnil in Hd).
  split; [by split |]. split; [done |]. intros _.
  assert (forall r0, r0 < length (list_objs s) ->
            omap (fun q0 => step_objs s !! q0)
                 (default [] ((list_objs s ++ [q :: l]) !! r0)) =
            deref_steps s r0) as Hold.
  { intros r0 Hr0. unfold deref_steps, deref_list.
    by rewrite lookup_app_l. }
  split; [| split; [| split; [| split]]].
  - unfold stored_steps. simpl. rewrite get_set_eq. f_equal.
    unfold draft, deref_steps, deref_list. simpl.
    rewrite lookup_app_r, Nat.sub_diag by lia. simpl.
    unfold deref_list in E. by rewrite E.
  - simpl. by rewrite get_set_eq.
  - unfold draft at 1. unfold deref_steps, deref_list. simpl.
    by rewrite Hold.
  - intros j Hj. unfold stored_steps. simpl.
    rewrite get_set_ne by congruence.
    destruct (PyDict.get j (workflows s)) as [w|] eqn:Ej; [| done].
    f_equal. unfold deref_steps at 1. unfold deref_list. simpl.
    apply Hold. apply get_Some_elem in Ej. rewrite Forall_forall in He.
    by destruct (He _ Ej) as (_ & ? & _).
  - done.
Qed.

Lemma save_current_workflow_saved name description s :
  wf_state s ->
  (save_current_workflow name description s).1 = true ->
  stored_steps (save_current_workflow name description s).2 name
    = Some (draft s) /\
  workflow_file (save_current_workflow name description s).2 =
    workflow_file
      (save_workflows (save_current_workflow name description s).2).2.
Proof.
  intros _. unfold WorkflowStore.save_current_workflow.
  destruct (String.eqb name ""); [done |].
  destruct (deref_list s (current_workflow s)) as [|q l] eqn:E; [done |].
  intros _. split; [| done].
  unfold stored_steps. simpl. rewrite get_set_eq. f_equal.
  unfold draft, deref_steps, deref_list. simpl.
  rewrite lookup_app_r, Nat.sub_diag by lia. simpl.
  unfold deref_list in E. by rewrite E.
Qed.

Lemma load_workflow_draft name s :
  (load_workflow name s).1 = true ->
  Some (draft (load_workflow name s).2) = stored_steps s name.
Proof.
  unfold load_workflow, stored_steps, draft.
  destruct (PyDict.get name (workflows s)) as [w|]; [| done]. simpl.
  intros _. f_equal. unfold deref_steps, deref_list. simpl.
  by rewrite lookup_app_r, Nat.sub_diag by lia.
Qed.

Lemma run_ops_wf ops s :
  wf_state s ->
  Forall (fun o => method_op o = true) ops ->
  wf_state (fold_left run_op ops s).
Proof.
  revert s. induction ops as [|o ops IH]; intros s Hs Hops; [done |].
  inversion Hops as [|? ? Ho Hrest]; subst. simpl. apply IH; [| done].
  destruct o as [a p| |i f]; simpl in *; [| | done].
  - by apply add_step_wf.
  - by apply clear_wf.
Qed.

(** X14: saving the draft, changing the draft with the manager's methods, and
    loading the saved workflow brings the draft back to what was saved. *)
Theorem save_then_load_restores_draft name description s ops :
  reachable s ->
  (save_current_workflow name description s).1 = true ->
  Forall (fun o => method_op o = true) ops ->
  let s1 := (save_current_workflow name description s).2 in
  let r := load_workflow name (fold_left run_op ops s1) in
  r.1 = true /\ draft r.2 = draft s.
Proof.
  intros Hr Hok Hops s1 r.
  destruct (save_current_workflow_saved name description s
              (reachable_wf s Hr) Hok) as (Hst & _).
  assert (wf_state s1) as Hs1.
  { apply (save_current_workflow_wf default_created_at default_modified_at).
    by apply reachable_wf. }
  pose proof (run_ops_stored strftime_now ops s1 name Hs1 Hops) as Hkeep.
  fold s1 in Hst. rewrite Hst in Hkeep.
  assert (r.1 = true) as Hload.
  { subst r. unfold load_workflow, stored_steps in *.
    by destruct (PyDict.get name (workflows (fold_left run_op ops s1))). }
  split; [done |].
  pose proof (load_workflow_draft name _ Hload) as Hd.
  fold r in Hd. rewrite Hkeep in Hd. by injection Hd.
Qed.

(** X15: clearing empties the draft, and does so again when called twice; the
    stored workflows are not touched. *)
Theorem clear_current_workflow_empties s :
  reachable s ->
  draft (clear_current_workflow s) = [] /\
  draft (clear_current_workflow (clear_current_workflow s)) = [] /\
  workflows (clear_current_workflow (clear_current_workflow s)) = workflows s /\
  forall name,
    stored_steps (clear_current_workflow s) name = stored_steps s name /\
    stored_steps (clear_current_workflow (clear_current_workflow s)) name
      = stored_steps s name.
Proof.
  intros Hr. pose proof (reachable_wf s Hr) as Hs.
  assert (forall t, draft (clear_current_workflow t) = []) as Hempty.
  { intros t. unfold draft, deref_steps, deref_list. simpl.
    by rewrite lookup_app_r, Nat.sub_diag by lia. }
  split; [apply Hempty |]. split; [apply Hempty |]. split; [done |].
  intros name. split; [by apply clear_stored |].
  rewrite clear_stored by (by apply clear_wf). by apply clear_stored.
Qed.


(** The kinds of the steps stored under a name come back from the file. *)
Lemma roundtrip_kinds t name :
  Forall (fun kw => WorkflowStore.name kw.2 = kw.1) (workflows t) ->
  NoDup (PyDict.keys (workflows t)) ->
  map kind <$> stored_steps (init (workflow_file (save_workflows t).2)) name =
  map kind <$> stored_steps t name.
Proof.
  intros He Hn.
  unfold WorkflowStore.init, WorkflowStore.load_workflows. simpl.
  set (ds := PyDict.values
               (map (fun kw => (kw.1, to_dict t kw.2)) (workflows t))).
  assert (map d_name ds = PyDict.keys (workflows t)) as Hnames.
  { subst ds. unfold PyDict.values, PyDict.keys. rewrite !map_map. simpl.
    apply map_ext_Forall. exact He. }
  match goal with |- context [fold_left _ ds ?t0] => set (s0 := t0) end.
  destruct (fold_load_entry_loaded strftime_now ds s0) as (_ & Hk & Hall).
  { by rewrite Hnames. }
  { unfold valid_lists. simpl. by repeat constructor. }
  { done. }
  unfold stored_steps.
  destruct (PyDict.get name (workflows t)) as [w|] eqn:E.
  - pose proof (get_Some_elem _ _ _ E) as Hin.
    rewrite Forall_forall in He. pose proof (He _ Hin) as Hname.
    simpl in Hname. rewrite Forall_forall in Hall.
    destruct (Hall (to_dict t w)) as (w' & Hg & _ & Hd).
    { subst ds. unfold PyDict.values. rewrite map_map. simpl.
      apply list_elem_of_In, in_map_iff. exists (name, w).
      split; [done | by apply list_elem_of_In]. }
    simpl in Hg. rewrite Hname in Hg. rewrite Hg. simpl. by rewrite Hd.
  - destruct (PyDict.get name
                (workflows (fold_left (load_entry strftime_now) ds s0)))
      as [w'|] eqn:E'; [| done].
    exfalso.
    assert (name ∈ PyDict.keys (workflows t)) as Hin.
    { rewrite <- Hnames, <- Hk. apply get_elem_of_keys. by rewrite E'. }
    apply get_elem_of_keys in Hin. rewrite E in Hin. by destruct Hin.
Qed.

(** X16: a workflow that was saved is there after a restart: a new manager
    started on the file holds, under the same name, steps with the kinds
    and the assistants of the draft that was saved. *)
Theorem saved_workflow_survives_restart name description s :
  reachable s ->
  (save_current_workflow name description s).1 = true ->
  let s' := init (workflow_file (save_current_workflow name description s).2) in
  map kind <$> stored_steps s' name = Some (map kind (draft s)).
Proof.
  intros Hr Hok. simpl.
  assert (wf_state (save_current_workflow name description s).2) as Hwf.
  { apply (save_current_workflow_wf default_created_at default_modified_at).
    by apply reachable_wf. }
  destruct (save_current_workflow_saved name description s
              (reachable_wf s Hr) Hok) as [Hst Hfile].
  rewrite Hfile, roundtrip_kinds.
  - by rewrite Hst.
  - destruct Hwf as (_ & _ & He & _).
    eapply Forall_impl; [exact He |]. by intros kw (? & _).
  - apply Hwf.
Qed.

End Manager.

Lemma reachable_state_invariant_witness :
  let s := (save_current_workflow "t0" "t0" "V" "two"
              (add_step sample_clock ["architect"; "reviewer"] true
                 sample_state).2).2 in
  reachable sample_clock "t0" "t0" s /\
  NoDup (PyDict.keys (workflows s)).
Proof.
  intros s.
  assert (reachable sample_clock "t0" "t0" s) as Hr.
  { apply reach_save_current, reach_add_step, reach_init. }
  split; [exact Hr |].
  apply (reachable_state_invariant sample_clock "t0" "t0" s Hr).
Defined.

Lemma add_step_appends_witness :
  reachable sample_clock "t0" "t0" sample_state /\
  draft (add_step sample_clock ["architect"; ""; "architect"] true
           sample_state).2 =
  draft sample_state ++
    [mkStep ["architect"; "architect"] true (sample_clock 0)].
Proof.
  assert (reachable sample_clock "t0" "t0" sample_state) as Hr
    by apply reach_init.
  split; [exact Hr |].
  apply (add_step_appends sample_clock "t0" "t0"
           ["architect"; ""; "architect"] true sample_state Hr).
  discriminate.
Defined.

Lemma save_current_workflow_snapshot_witness :
  let s := (add_step sample_clock ["architect"] false sample_state).2 in
  reachable sample_clock "t0" "t0" s /\
  (save_current_workflow "t0" "t0" "W" "again" s).1 = true /\
  stored_steps (save_current_workflow "t0" "t0" "W" "again" s).2 "W"
    = Some (draft s).
Proof.
  intros s.
  assert (reachable sample_clock "t0" "t0" s) as Hr
    by apply reach_add_step, reach_init.
  split; [exact Hr |]. split; [reflexivity |].
  apply (save_current_workflow_snapshot sample_clock "t0" "t0" "W" "again"
           s Hr).
  reflexivity.
Defined.

Lemma save_then_load_restores_draft_witness :
  let s := (add_step sample_clock ["architect"] false sample_state).2 in
  let ops := [OpClear; OpAddStep ["reviewer"] true] in
  reachable sample_clock "t0" "t0" s /\
  (save_current_workflow "t0" "t0" "V" "" s).1 = true /\
  Forall (fun o => method_op o = true) ops /\
  draft (load_workflow "V"
           (fold_left (run_op sample_clock) ops
              (save_current_workflow "t0" "t0" "V" "" s).2)).2 = draft s.
Proof.
  intros s ops.
  assert (reachable sample_clock "t0" "t0" s) as Hr
    by apply reach_add_step, reach_init.
  assert (Forall (fun o => method_op o = true) ops) as Hops
    by (repeat constructor).
  split; [exact Hr |]. split; [reflexivity |]. split; [exact Hops |].
  apply (save_then_load_restores_draft sample_clock "t0" "t0" "V" "" s ops
           Hr eq_refl Hops).
Defined.

Lemma clear_current_workflow_empties_witness :
  let s := (load_workflow "W" sample_state).2 in
  reachable sample_clock "t0" "t0" s /\
  draft (clear_current_workflow s) = [].
Proof.
  intros s.
  assert (reachable sample_clock "t0" "t0" s) as Hr
    by apply reach_load, reach_init.
  split; [exact Hr |].
  apply (clear_current_workflow_empties sample_clock "t0" "t0" s Hr).
Defined.

Lemma saved_workflow_survives_restart_witness :
  let s := (add_step sample_clock ["architect"; "reviewer"] true
              sample_state).2 in
  reachable sample_clock "t0" "t0" s /\
  (save_current_workflow "t0" "t0" "V" "" s).1 = true /\
  map kind <$>
    stored_steps
      (init sample_clock
         (workflow_file (save_current_workflow "t0" "t0" "V" "" s).2)) "V"
  = Some (map kind (draft s)).
Proof.
  intros s.
  assert (reachable sample_clock "t0" "t0" s) as Hr
    by apply reach_add_step, reach_init.
  split; [exact Hr |]. split; [reflexivity |].
  apply (saved_workflow_survives_restart sample_clock "t0" "t0" "V" "" s
           Hr eq_refl).
Defined.

End WorkflowExtra.

(** ** Edges of the stores and of the engine *)
Module EdgeFacts.

Import ListFacts DictFacts.

Section Assistants.

Import AssistantStore AssistantFacts.

Variable refuses_assignment : string -> bool.

Local Abbreviation apply_items := (apply_items refuses_assignment).
Local Abbreviation update_assistant := (update_assistant refuses_assignment).

Lemma apply_items_refused pre key value post a :
  Forall (fun kv => refuses_assignment kv.1 = false) pre ->
  refuses_assignment key = true ->
  apply_items (pre ++ (key, value) :: post) a = ((apply_items pre a).1, false).
Proof.
  revert a. induction pre as [|[k v] pre IH]; intros a Hpre Hkey.
  - simpl. by rewrite Hkey.
  - inversion Hpre as [|? ? Hk Hr]; subst. simpl in *. rewrite Hk.
    by apply IH.
Qed.

Lemma setattr_modified_at a k v :
  modified_at (setattr a k v) =
  if String.eqb k "modified_at" then v else modified_at a.
Proof.
  unfold setattr.
  destruct (String.eqb_spec k "id") as [->|?]; [done |].
  destruct (String.eqb_spec k "name") as [->|?]; [done |].
  destruct (String.eqb_spec k "role") as [->|?]; [done |].
  destruct (String.eqb_spec k "prompt") as [->|?]; [done |].
  destruct (String.eqb_spec k "created_at") as [->|?]; [done |].
  by destruct (String.eqb_spec k "modified_at") as [->|?].
Qed.

(** X3: an update is not all or nothing.  When the assignment of an item is
    refused the call returns [False], but the items before it have been
    applied to the stored assistant and stay applied; the modification
    time is not refreshed and nothing is saved. *)
Theorem update_assistant_refused_is_partial k a pre key value post now m :
  get_assistant k m = Some a ->
  Forall (fun kv => refuses_assignment kv.1 = false) pre ->
  refuses_assignment key = true ->
  let r := update_assistant k (pre ++ (key, value) :: post) now m in
  r.1 = false /\
  exists a',
    get_assistant k r.2 = Some a' /\
    name a' = default (name a) (supplied "name" pre) /\
    role a' = default (role a) (supplied "role" pre) /\
    prompt a' = default (prompt a) (supplied "prompt" pre) /\
    id a' = default (id a) (supplied "id" pre) /\
    modified_at a' = default (modified_at a) (supplied "modified_at" pre) /\
    config_assistants r.2 = config_assistants m /\
    (forall j, j <> k -> get_assistant j r.2 = get_assistant j m).
Proof.
  unfold get_assistant, AssistantStore.update_assistant.
  intros Hget Hpre Hkey. rewrite Hget.
  rewrite (apply_items_refused pre key value post a Hpre Hkey). simpl.
  split; [done |]. eexists. split; [apply get_set_eq |].
  rewrite (apply_items_field refuses_assignment name "name" eq_refl
             setattr_name pre a Hpre).
  rewrite (apply_items_field refuses_assignment role "role" eq_refl
             setattr_role pre a Hpre).
  rewrite (apply_items_field refuses_assignment prompt "prompt" eq_refl
             setattr_prompt pre a Hpre).
  rewrite (apply_items_field refuses_assignment id "id" eq_refl
             setattr_id pre a Hpre).
  rewrite (apply_items_field refuses_assignment modified_at "modified_at"
             eq_refl setattr_modified_at pre a Hpre).
  repeat split. intros j Hj. apply get_set_ne. congruence.
Qed.

End Assistants.

Lemma update_assistant_refused_is_partial_witness :
  let data := [("name", "Critic"); ("__class__", "x"); ("role", "judge")] in
  AssistantStore.get_assistant "reviewer" AssistantStore.sample_manager
    = Some AssistantStore.sample_reviewer /\
  AssistantStore.sample_refuses "__class__" = true /\
  (AssistantStore.update_assistant AssistantStore.sample_refuses "reviewer"
     data "t9" AssistantStore.sample_manager).1 = false.
Proof.
  intros data. split; [reflexivity |]. split; [reflexivity |].
  apply (update_assistant_refused_is_partial AssistantStore.sample_refuses
           "reviewer" AssistantStore.sample_reviewer [("name", "Critic")]
           "__class__" "x" [("role", "judge")] "t9"
           AssistantStore.sample_manager eq_refl).
  - by repeat constructor.
  - reflexivity.
Defined.

Section Workflows.

Import WorkflowStore WorkflowFacts.

Variable strftime_now : nat -> string.

Local Abbreviation load_entry := (load_entry strftime_now).
Local Abbreviation init := (init strftime_now).

Lemma last_named_snoc name ds d :
  last_named name (ds ++ [d]) =
  if String.eqb name (d_name d) then Some d else last_named name ds.
Proof.
  unfold last_named. rewrite map_app. cbn [map]. by rewrite rev_unit.
Qed.

(** What is stored under a name after the entries [ds] have been loaded. *)
Lemma fold_load_entry_lookup ds t name :
  wf_state t ->
  map kind <$> stored_steps (fold_left load_entry ds t) name =
  match last_named name ds with
  | Some d => Some (map kind (d_steps d))
  | None => map kind <$> stored_steps t name
  end.
Proof.
  intros Ht. induction ds as [|d ds IH] using rev_ind; [done |].
  rewrite fold_left_app, last_named_snoc. simpl.
  pose proof (fold_load_entry_wf strftime_now ds t Ht) as Hu.
  set (u := fold_left load_entry ds t) in *.
  destruct (load_entry_fields strftime_now u d)
    as (cs & Hso & Hkind & Hlo & Hws & _).
  destruct Hu as (_ & Hv & He & _).
  unfold stored_steps in *. rewrite Hws.
  destruct (String.eqb_spec name (d_name d)) as [->|Hne].
  - rewrite get_set_eq. simpl. f_equal. rewrite <- Hkind. f_equal.
    unfold deref_steps, deref_list. simpl.
    rewrite Hlo, Hso, lookup_app_r, Nat.sub_diag by lia. simpl.
    pose proof (omap_lookup_seq (step_objs u) cs []) as Ho.
    by rewrite app_nil_r in Ho.
  - rewrite get_set_ne by congruence. rewrite <- IH.
    destruct (PyDict.get name (workflows u)) as [w|] eqn:E; [| done].
    simpl. do 2 f_equal. apply deref_steps_frame.
    + rewrite Hlo. apply lookup_app_l.
      apply get_Some_elem in E. rewrite Forall_forall in He.
      by destruct (He _ E) as (_ & ? & _).
    + intros q Hq. rewrite Hso. apply lookup_app_l.
      pose proof (deref_list_valid u (steps w) Hv) as Hf.
      rewrite Forall_forall in Hf. by apply Hf.
Qed.

(** X17: a new manager reads the file entry by entry and stores each workflow
    under the name written inside the entry, not under the key of the
    entry; of several entries with one name the last stands.  Without a
    file the store is empty; the draft is empty in either case. *)
Theorem init_stores_by_name file name :
  map kind <$> stored_steps (init file) name =
    ((fun d => map kind (d_steps d)) <$>
       last_named name (PyDict.values (default [] file))) /\
  workflows (init None) = [] /\
  draft (init file) = [].
Proof.
  assert (wf_state (mkState [] [[]] [] 0 file 0)) as H0.
  { repeat split; simpl; [lia | | constructor | constructor].
    unfold valid_lists. simpl. by repeat constructor. }
  split; [| split; [done |]].
  - unfold WorkflowStore.init, WorkflowStore.load_workflows. simpl.
    destruct file as [data|]; [| done]. simpl.
    rewrite (fold_load_entry_lookup _ _ _ H0).
    by destruct (last_named name (PyDict.values data)).
  - unfold WorkflowStore.init, WorkflowStore.load_workflows. simpl.
    destruct file as [data|]; [| done].
    assert (forall ds t,
              list_objs t !! current_workflow t = Some [] ->
              draft (fold_left load_entry ds t) = []) as Hdraft.
    { clear. intros ds. induction ds as [|d ds IH]; intros t Ht.
      - unfold draft, deref_steps, deref_list. simpl. unfold ref in *.
        by rewrite Ht.
      - simpl. apply IH.
        destruct (load_entry_fields strftime_now t d)
          as (cs & _ & _ & Hlo & _ & Hc & _).
        unfold ref in *. rewrite Hc, Hlo. rewrite lookup_app_l; [done |].
        by eapply lookup_lt_Some. }
    by apply Hdraft.
Qed.

End Workflows.

Section Engine.

Import WorkflowStore Engine.

Context {W : Type}.
Variable create : Request -> W -> Response * W.
Variable race : W -> nat.
Variable default_timestamp : string.

Local Abbreviation process_message :=
  (process_message create race default_timestamp).

(** X20: a step without assistants makes no call.  A sequential one passes the
    current message on; a parallel one passes the empty string on, so that
    the steps after it run as if the user had sent nothing. *)
Theorem empty_step_passes_on cm message sid rest model n :
  system_state cm = INITIALIZED ->
  let skip := process_message cm message rest model n in
  let seq := process_message cm message (mkStep [] false sid :: rest) model n in
  let par := process_message cm message (mkStep [] true sid :: rest) model n in
  let blank := process_message cm "" rest model n in
  seq = skip /\ par.1.1 = blank.1.1 /\ par.2 = blank.2.
Proof.
  intros Hinit. unfold Engine.process_message. rewrite Hinit.
  cbn [Engine.run_steps Engine.run_step is_parallel assistants
       Engine.run_sequential Engine.run_tasks].
  unfold Engine.gather. cbn [omap list_omap]. simpl.
  split; [done |].
  destruct (run_steps create race rest (Some "") [] model n)
    as [[[last results]|e] n1]; [| done].
  by destruct (str_join PyStr.nl results).
Qed.

End Engine.

Lemma empty_step_passes_on_witness :
  Engine.system_state Engine.sample_chat = Engine.INITIALIZED /\
  Engine.calls
    (Engine.process_message Engine.persona_echo (fun _ => 0) "t0"
       Engine.sample_chat "question"
       [WorkflowStore.mkStep [] true "s0";
        WorkflowStore.mkStep ["C"] false "s1"]
       "gpt" (Engine.mkNet tt [])).2 =
  Engine.calls
    (Engine.process_message Engine.persona_echo (fun _ => 0) "t0"
       Engine.sample_chat ""
       [WorkflowStore.mkStep ["C"] false "s1"]
       "gpt" (Engine.mkNet tt [])).2.
Proof.
  split; [reflexivity |].
  destruct (empty_step_passes_on Engine.persona_echo (fun _ => 0) "t0"
              Engine.sample_chat "question" "s0"
              [WorkflowStore.mkStep ["C"] false "s1"] "gpt"
              (Engine.mkNet tt []) eq_refl) as (_ & _ & Hnet).
  by rewrite Hnet.
Defined.

End EdgeFacts.

(** ** More on the execution engine and its callers *)
Module EngineExtra.

Import WorkflowStore Engine ListFacts EngineFacts Interface.






Section Service.

Context {W : Type}.
Variable create : Request -> W -> Response * W.
Variable race : W -> nat.
Variable default_timestamp : string.

Local Abbreviation get_assistant_response := (get_assistant_response create).
Local Abbreviation run_tasks := (run_tasks create).
Local Abbreviation gather := (gather race).
Local Abbreviation run_sequential := (run_sequential create).
Local Abbreviation run_step := (run_step create race).
Local Abbreviation run_steps := (run_steps create race).
Local Abbreviation process_message :=
  (process_message create race default_timestamp).

(** *** Calls and answers *)

Lemma run_sequential_answers model ids :
  forall current results n,
  exists new,
    calls (run_sequential ids current results model n).2 = calls n ++ new /\
    length new <= length ids /\
    forall last results',
      (run_sequential ids current results model n).1
        = Return (last, results') ->
      results' = results ++ map (fun c => text_of c.2) new /\
      length new = length ids.
Proof.
  induction ids as [|id ids IH]; intros current results n.
  - exists []. simpl. rewrite app_nil_r. split; [done |]. split; [done |].
    intros last results' [= _ <-]. by rewrite app_nil_r.
  - cbn [Engine.run_sequential]. rewrite get_assistant_response_eq.
    destruct (create (request current id model) (world n)) as [resp w'].
    cbn [fst snd]. destruct (is_failure resp) eqn:Hfail.
    + destruct resp as [text| |cause]; try done. simpl.
      exists [(request current id model, Failure cause)].
      split; [done |]. split; [simpl; lia | done].
    + rewrite (outcome_text _ Hfail). set (n1 := mkNet w' _).
      destruct (IH (text_of resp) (results ++ [text_of resp]) n1)
        as (new & Hc & Hl & Hr).
      exists ((request current id model, resp) :: new).
      split; [| split].
      * rewrite Hc. subst n1. simpl. by rewrite <- (assoc_L (++)).
      * simpl. lia.
      * intros last results' Hret. destruct (Hr _ _ Hret) as [-> Hlen].
        split; [| simpl; lia]. cbn [map]. by rewrite <- (assoc_L (++)).
Qed.

Lemma run_step_answers model step :
  forall current results n,
  exists new,
    calls (run_step step current results model n).2 = calls n ++ new /\
    length new <= length (assistants step) /\
    forall next results',
      (run_step step current results model n).1
        = Return (next, results') ->
      results' = results ++ map (fun c => text_of c.2) new /\
      length new = length (assistants step).
Proof.
  intros current results n. unfold Engine.run_step.
  destruct (is_parallel step); [| apply run_sequential_answers].
  destruct (run_tasks_log create current model (assistants step) n)
    as (new & Hc & Hf & Ho & _).
  destruct (run_tasks current model (assistants step) n) as [outs n1].
  cbn [fst snd] in *. exists new.
  assert (length new = length (assistants step)) as Hlen.
  { by rewrite <- (length_map fst new), Hf, length_map. }
  destruct (gather_cases race outs n1) as [[Hnone ->]|(e & _ & ->)].
  - subst outs. destruct (no_failure_contents new Hnone) as [_ Hret].
    rewrite Hret.
    destruct (str_join PyStr.nl (map (fun c => text_of c.2) new));
      cbn [fst snd].
    + split; [done |]. split; [lia |].
      by intros next results' [= _ <-].
    + split; [done |]. split; [lia | done].
  - cbn [fst snd]. split; [done |]. split; [lia | done].
Qed.

Lemma run_steps_answers model steps :
  forall current results n,
  exists new,
    calls (run_steps steps current results model n).2 = calls n ++ new /\
    length new <= length (all_ids steps) /\
    forall last results',
      (run_steps steps current results model n).1
        = Return (last, results') ->
      results' = results ++ map (fun c => text_of c.2) new /\
      length new = length (all_ids steps).
Proof.
  induction steps as [|step steps IH]; intros current results n.
  - exists []. simpl. rewrite app_nil_r. split; [done |]. split; [done |].
    intros last results' [= _ <-]. by rewrite app_nil_r.
  - cbn [Engine.run_steps].
    destruct (run_step_answers model step current results n)
      as (new1 & Hc1 & Hl1 & Hr1).
    unfold all_ids. cbn [map concat]. fold (all_ids steps).
    rewrite length_app.
    destruct (run_step step current results model n)
      as [[[next results1]|e] n1]; cbn [fst snd] in Hc1, Hr1.
    + destruct (Hr1 _ _ eq_refl) as [-> Hlen1].
      destruct (IH next (results ++ map (fun c => text_of c.2) new1) n1)
        as (new2 & Hc2 & Hl2 & Hr2).
      exists (new1 ++ new2). split; [| split].
      * rewrite Hc2, Hc1, <- (assoc_L (++)). done.
      * rewrite length_app. lia.
      * intros last results' Hret. destruct (Hr2 _ _ Hret) as [-> Hlen2].
        rewrite map_app, length_app, <- (assoc_L (++)). split; [done | lia].
    + exists new1. split; [done |]. split; [lia | done].
Qed.

(** X18: a run makes at most one call for each assistant id of the workflow.
    When it returns it has made exactly one call for each, and what it
    returns is the join of the answers to those calls, in the order in
    which the calls were issued. *)
Theorem run_returns_joined_answers cm message workflow model n :
  system_state cm = INITIALIZED ->
  let r := process_message cm message workflow model n in
  exists new,
    calls r.2 = calls n ++ new /\
    length new <= length (all_ids workflow) /\
    forall final,
      r.1.1 = Return final ->
      length new = length (all_ids workflow) /\
      final = PyStr.join PyStr.nl (answers new) /\
      List.last (conversation_history r.1.2)
                (mkMessage "" "" "") =
        mkMessage "assistant" (PyStr.join PyStr.nl (answers new))
                  default_timestamp.
Proof.
  intros Hinit. unfold Engine.process_message. rewrite Hinit.
  destruct (run_steps_answers model workflow (Some message) [] n)
    as (new & Hc & Hl & Hr).
  destruct (run_steps workflow (Some message) [] model n)
    as [[[last results]|e] n1]; cbn [fst snd] in *; exists new.
  - destruct (Hr _ _ eq_refl) as [-> Hlen]. cbn [app].
    destruct (str_join_cases PyStr.nl (map (fun c => text_of c.2) new))
      as [(rs & Hrs & ->)|(i & _ & _ & ->)]; cbn [fst snd].
    + destruct (texts_answers new rs Hrs) as [_ <-].
      split; [done |]. split; [done |]. intros final [= <-].
      split; [done |]. split; [done |]. simpl. by rewrite last_last.
    + split; [done |]. split; [done |]. done.
  - split; [done |]. split; [done |]. done.
Qed.


Lemma state_unchanged cm message workflow model n :
  system_state (process_message cm message workflow model n).1.2
  = system_state cm.
Proof.
  unfold Engine.process_message.
  destruct (system_state cm) eqn:E; try done.
  by destruct (run_steps workflow (Some message) [] model n)
    as [[[last results]|e] n1]; [destruct (str_join PyStr.nl results) |].
Qed.

(** X19: a run never rewrites the history: whatever the session and the
    outcome, the history after the run is the history before it followed
    by at most two messages, and the state of the session is as before.
    A session that is not initialized gains no message and makes no call;
    an initialized one gains the user message first. *)
Theorem process_message_appends_only cm message workflow model n :
  let r := process_message cm message workflow model n in
  system_state r.1.2 = system_state cm /\
  exists tail,
    conversation_history r.1.2 = conversation_history cm ++ tail /\
    length tail <= 2 /\
    (system_state cm <> INITIALIZED -> tail = [] /\ r.2 = n) /\
    (system_state cm = INITIALIZED ->
     exists rest,
       tail = mkMessage "user" message default_timestamp :: rest).
Proof.
  unfold Engine.process_message.
  destruct (system_state cm) eqn:Hst.
  - simpl. split; [done |]. exists []. rewrite app_nil_r.
    split; [done |]. split; [simpl; lia |]. split; [done |]. done.
  - destruct (run_steps workflow (Some message) [] model n)
      as [[[last results]|e] n1]; [destruct (str_join PyStr.nl results) |];
      simpl.
    + split; [done |]. eexists. rewrite <- (assoc_L (++)).
      split; [done |]. split; [simpl; lia |]. split; [done |].
      intros _. by eexists.
    + split; [done |]. eexists. split; [done |]. split; [simpl; lia |].
      split; [done |]. intros _. by eexists.
    + split; [done |]. eexists. split; [done |]. split; [simpl; lia |].
      split; [done |]. intros _. by eexists.
  - simpl. split; [done |]. exists []. rewrite app_nil_r.
    split; [done |]. split; [simpl; lia |]. split; [done |]. done.
Qed.


End Service.

(** *** The session and the send handler *)

Section Handlers.

Context {C W : Type}.
Variable OpenAI : string -> string -> option C.
Variable create : C -> Request -> W -> Response * W.
Variable race : W -> nat.
Variable default_timestamp : string.
Variable conversation_log_value : option string.

Local Abbreviation init_system := (init_system OpenAI).
Local Abbreviation process_message_with_log :=
  (process_message_with_log create race default_timestamp
     conversation_log_value).
Local Abbreviation session_reachable :=
  (session_reachable OpenAI create race default_timestamp
     conversation_log_value).

(** The state and the client of the session after the send handler. *)
Lemma send_keeps_session message history workflow_name model ws
    (s : ChatSession C) (n : Net) :
  let s' :=
    (process_message_with_log message history workflow_name model ws s n).1.2
  in
  client s' = client s /\ api_key s' = api_key s /\
  api_base s' = api_base s /\
  system_state (chat s') = system_state (chat s).
Proof.
  unfold Interface.process_message_with_log.
  destruct (String.eqb message ""); [done |].
  destruct (client s) as [c|] eqn:Hc; [| simpl; by rewrite ?Hc].
  destruct (String.eqb workflow_name ""); [simpl; by rewrite ?Hc |].
  pose proof (state_unchanged (create c) race default_timestamp (chat s)
                message (draft ws) model n) as Hst.
  destruct (Engine.process_message (create c) race default_timestamp (chat s)
              message (draft ws) model n) as [[[x|e] cm] n1]; simpl in *;
    by rewrite ?Hc.
Qed.

(** X22: a session in state [INITIALIZED] has a client, and a key that is not
    empty: the engine never reaches for a client that is not there. *)
Theorem initialized_session_has_client (s : ChatSession C) :
  session_reachable s ->
  system_state (chat s) = INITIALIZED ->
  is_Some (client s) /\ api_key s <> "".
Proof.
  induction 1 as [|key base model s _ IH
                  |message history workflow_name model ws s n _ IH
                  |s _ IH].
  - done.
  - unfold Interface.init_system.
    destruct (String.eqb_spec key "") as [->|Hkey]; [exact IH |].
    unfold initialize. destruct (OpenAI key base) as [c|]; simpl; [| done].
    intros _. split; [by eexists | done].
  - destruct (send_keeps_session message history workflow_name model ws s n)
      as (Hc & Hk & _ & Hst).
    rewrite Hst, Hc, Hk. exact IH.
  - exact IH.
Qed.

(** When the constructor of the client fails, [initialize] returns
    [False]; the history and the client are kept, and every run is refused
    at once, with no call and no message, also in a session that was
    initialized before. *)
Lemma failed_initialize_disables_runs key base (s : ChatSession C)
    c message workflow model (n : Net) :
  OpenAI key base = None ->
  let r := initialize OpenAI key base s in
  r.1 = false /\
  client r.2 = client s /\
  conversation_history (chat r.2) = conversation_history (chat s) /\
  process_message (create c) race default_timestamp (chat r.2) message
                  workflow model n
  = (Raise (APIError not_initialized), chat r.2, n).
Proof. unfold initialize. by intros ->. Qed.

(** X23: the send handler, for a message that is not empty, adds exactly one
    row to the rows shown: the message and a text.  The text is a notice,
    and nothing else happens, when the session has no client or no
    workflow is selected; when the session has a client but is not in
    state [INITIALIZED], the text is the error of the refused run.
    Otherwise the draft is run, whatever workflow is selected, and the text
    is what the run returns or its error. *)
Theorem send_adds_one_row message history workflow_name model ws
    (s : ChatSession C) (n : Net) :
  message <> "" ->
  let r := process_message_with_log message history workflow_name model ws s n in
  exists text,
    r.1.1 = (history ++ [(message, Some text)], None,
             Some (format_conversation_log (history ++ [(message, Some text)])))
    /\
    (client s = None ->
     text = "请先初始化系统" /\ r.1.2 = s /\ r.2 = n) /\
    (is_Some (client s) -> workflow_name = "" ->
     text = "请先选择工作流" /\ r.1.2 = s /\ r.2 = n) /\
    (is_Some (client s) -> workflow_name <> "" ->
     system_state (chat s) <> INITIALIZED ->
     text = "错误: " +:+ not_initialized /\ r.1.2 = s /\ r.2 = n) /\
    (forall c, client s = Some c -> workflow_name <> "" ->
     let p := process_message (create c) race default_timestamp (chat s)
                message (draft ws) model n in
     chat r.1.2 = p.1.2 /\ r.2 = p.2 /\
     text = match p.1.1 with
            | Return response => response
            | Raise e => "错误: " +:+ str e
            end).
Proof.
  intros Hm. apply String.eqb_neq in Hm.
  unfold Interface.process_message_with_log. rewrite Hm.
  destruct s as [k b cl cm]. simpl.
  destruct cl as [c|].
  - destruct (String.eqb_spec workflow_name "") as [->|Hw].
    + eexists. split; [done |]. split; [done |]. split; [done |].
      split; [done |]. intros c' _ Hne. done.
    + pose proof (process_message_uninitialized (create c) race
                    default_timestamp cm message (draft ws) model n) as Hun.
      destruct (Engine.process_message (create c) race default_timestamp cm
                  message (draft ws) model n) as [[[x|e] cm1] n1] eqn:E;
        simpl; eexists; (split; [done |]); (split; [done |]);
        (split; [done |]); split.
      * intros _ _ Hst. specialize (Hun Hst). done.
      * intros c' [= <-] _. by rewrite E.
      * intros _ _ Hst. specialize (Hun Hst).
        injection Hun as -> -> ->. done.
      * intros c' [= <-] _. by rewrite E.
  - eexists. split; [done |]. split; [done |].
    split; [by intros [? ?] |]. split; [by intros [? ?] |]. done.
Qed.

End Handlers.

Lemma run_returns_joined_answers_witness :
  let r := process_message scripted first_failure "t0" sample_chat "X"
             sample_workflow "gpt"
             (mkNet [Content "a"; Content "b"; Content "c"] []) in
  system_state sample_chat = INITIALIZED /\
  r.1.1 = Return (PyStr.join PyStr.nl ["a"; "b"; "c"]) /\
  exists new,
    calls r.2 = new /\ length new = 3 /\
    PyStr.join PyStr.nl ["a"; "b"; "c"] = PyStr.join PyStr.nl (answers new).
Proof.
  intros r. split; [reflexivity |]. split; [reflexivity |].
  destruct (run_returns_joined_answers scripted first_failure "t0"
              sample_chat "X" sample_workflow "gpt"
              (mkNet [Content "a"; Content "b"; Content "c"] []) eq_refl)
    as (new & Hc & _ & Hr).
  destruct (Hr _ eq_refl) as (Hlen & Hfinal & _).
  exists new. split; [exact Hc |]. split; [exact Hlen | exact Hfinal].
Defined.

Lemma initialized_session_has_client_witness :
  let s := (init_system sample_OpenAI "key" "base" "gpt" new_session).2 in
  session_reachable sample_OpenAI sample_create first_failure "t0" None s /\
  system_state (chat s) = INITIALIZED /\
  is_Some (client s).
Proof.
  intros s.
  assert (session_reachable sample_OpenAI sample_create first_failure "t0"
            None s) as Hr by apply session_init, session_new.
  split; [exact Hr |]. split; [reflexivity |].
  apply (initialized_session_has_client sample_OpenAI sample_create
           first_failure "t0" None s Hr eq_refl).
Defined.

Lemma failed_initialize_disables_runs_witness :
  let s := (initialize sample_OpenAI "key" "base" new_session).2 in
  sample_OpenAI "bad" "base" = None /\
  system_state (chat s) = INITIALIZED /\
  process_message (sample_create tt) first_failure "t0"
    (chat (initialize sample_OpenAI "bad" "base" s).2) "X" sample_workflow
    "gpt" (mkNet [Content "a"] [])
  = (Raise (APIError not_initialized),
     chat (initialize sample_OpenAI "bad" "base" s).2,
     mkNet [Content "a"] []).
Proof.
  intros s. split; [reflexivity |]. split; [reflexivity |].
  apply (failed_initialize_disables_runs sample_OpenAI sample_create
           first_failure "t0" "bad" "base" s tt "X" sample_workflow "gpt"
           (mkNet [Content "a"] []) eq_refl).
Defined.

Lemma send_adds_one_row_witness :
  let s := (initialize sample_OpenAI "key" "base" new_session).2 in
  let ws := (WorkflowStore.load_workflow "W" WorkflowStore.sample_state).2 in
  "hello" <> "" /\
  (process_message_with_log sample_create first_failure "t0" None
     "hello" [] "another name" "gpt" ws s
     (mkNet [Content "fine"] [])).1.1.1.1
  = [("hello", Some "fine")].
Proof.
  intros s ws. split; [discriminate |].
  destruct (send_adds_one_row sample_create first_failure "t0" None
              "hello" [] "another name" "gpt" ws s
              (mkNet [Content "fine"] [])) as (text & Hrow & _ & _ & _ & Hrun).
  { discriminate. }
  destruct (Hrun tt eq_refl) as (_ & _ & Htext); [discriminate |].
  rewrite Hrow. simpl. rewrite Htext. reflexivity.
Defined.

End EngineExtra.
